(** * watermarker.py: the watermark compositing engine

    A shallow embedding of [add_watermark] and [run_watermarker]
    (src/watermarker.py).  Python floats are IEEE binary64 values, modelled
    by Rocq's primitive floats; Python integers are [Z]; the Pillow calls
    ([paste], [alpha_composite], [point], [resize], [open], [save]) are
    collaborators outside the repository. *)

From Stdlib Require Import ZArith List String Ascii Bool Lia Floats.
From Stdlib Require Uint63.
Import ListNotations.

Local Open Scope Z_scope.

(** ** Python numbers *)

Module Py.

(** [float(n)] for an integer [n], as the mixed operators [int * float] and
    [float / int] apply it: the nearest double, ties to even.  Past the range
    of doubles Python raises OverflowError where this gives an infinity; both
    end in the same [except] clause of [add_watermark], since the next
    [int(...)] raises on an infinity or a NaN. *)
Definition of_int (n : Z) : float :=
  SF2Prim (binary_normalize prec emax n 0 false).

(** The integer part of a finite double given as sign, mantissa and
    exponent, rounded toward zero. *)
Definition trunc_finite (s : bool) (m : positive) (e : Z) : Z :=
  let q := match e with
           | Zneg k => Z.pos m / 2 ^ Z.pos k
           | _ => Z.pos m * 2 ^ e
           end in
  if s then - q else q.

(** [int(x)]: truncation toward zero; OverflowError on an infinity and
    ValueError on a NaN ([None]). *)
Definition to_int (x : float) : option Z :=
  match Prim2SF x with
  | S754_zero _ => Some 0
  | S754_finite s m e => Some (trunc_finite s m e)
  | S754_infinity _ | S754_nan => None
  end.

(** The mathematical floor of a double: the greatest integer below or equal
    to its value [(-1)^s * m * 2^e]. *)
Definition floor (x : float) : option Z :=
  match Prim2SF x with
  | S754_zero _ => Some 0
  | S754_finite s m e =>
      let n := if s then Z.neg m else Z.pos m in
      Some (match e with
            | Zneg k => n / 2 ^ Z.pos k
            | _ => n * 2 ^ e
            end)
  | S754_infinity _ | S754_nan => None
  end.

(** A double that is a zero or a finite positive number below [2^K]. *)
Definition mag_le (K : Z) (x : spec_float) : Prop :=
  match x with
  | S754_zero _ => True
  | S754_finite s m e => s = false /\ Z.pos (digits2_pos m) + e <= K
  | _ => False
  end.

(** A double that is a finite positive number, [2^(K-1)] at least. *)
Definition mag_ge (K : Z) (x : spec_float) : Prop :=
  match x with
  | S754_finite s m e => s = false /\ K <= Z.pos (digits2_pos m) + e
  | _ => False
  end.

End Py.

(** ** ScaleCalculator (lines 80-91) *)

Definition scale_factor (type_of_rescaling : string)
    (width height watermark_width watermark_height : Z) (proportion : float)
    : float :=
  if String.eqb type_of_rescaling "LINEAR" then
    (Py.of_int width * proportion / Py.of_int watermark_width)%float
  else if String.eqb type_of_rescaling "AREA" then
    PrimFloat.sqrt (Py.of_int (height * width) * proportion
                    / Py.of_int (watermark_height * watermark_width))%float
  else 1%float.

(** [new_size = (int(watermark_width*scale_factor),
                 int(watermark_height*scale_factor))]; [None] when an [int]
    raises. *)
Definition new_size (watermark_width watermark_height : Z) (s : float)
    : option (Z * Z) :=
  match Py.to_int (Py.of_int watermark_width * s)%float,
        Py.to_int (Py.of_int watermark_height * s)%float with
  | Some w, Some h => Some (w, h)
  | _, _ => None
  end.

Definition tenth : float := Eval cbv in (1 / 10)%float.

Example scale_example :
  scale_factor "LINEAR" 1000 500 200 100 tenth = 0.5%float
  /\ new_size 200 100 0.5%float = Some (100, 50).
Proof. split; vm_compute; reflexivity. Qed.

(** ** Data model: RasterImage (spec section 3) *)

Record pixel := RGBA { red : Z; green : Z; blue : Z; alpha : Z }.

Definition transparent : pixel := RGBA 0 0 0 0.

(** An RGBA image: its size and its pixels, one row after the other. *)
Record image := Image { im_width : Z; im_height : Z; im_data : list pixel }.

Definition size (im : image) : Z * Z := (im_width im, im_height im).

Definition inside (im : image) (x y : Z) : bool :=
  (0 <=? x) && (x <? im_width im) && (0 <=? y) && (y <? im_height im).

Definition getpixel (im : image) (x y : Z) : pixel :=
  nth (Z.to_nat (y * im_width im + x)) (im_data im) transparent.

Definition sample_ok (c : Z) : Prop := 0 <= c <= 255.

Definition pixel_ok (p : pixel) : Prop :=
  sample_ok (red p) /\ sample_ok (green p) /\ sample_ok (blue p)
  /\ sample_ok (alpha p).

(** The invariant of a RasterImage: as many pixels as the size says, every
    sample on 8 bits. *)
Definition image_ok (im : image) : Prop :=
  0 <= im_width im /\ 0 <= im_height im
  /\ Z.of_nat (List.length (im_data im)) = im_width im * im_height im
  /\ Forall pixel_ok (im_data im).

(** [f] applied to every element of a list together with its index, counted
    from [i]. *)
Fixpoint mapi {A B : Type} (f : Z -> A -> B) (i : Z) (l : list A) : list B :=
  match l with
  | [] => []
  | a :: l' => f i a :: mapi f (i + 1) l'
  end.

(** [f x y p] applied to every pixel [p] of an image at its coordinates. *)
Definition map_pixels (f : Z -> Z -> pixel -> pixel) (im : image) : image :=
  Image (im_width im) (im_height im)
    (mapi (fun i p => f (i mod im_width im) (i / im_width im) p) 0 (im_data im)).

(** ** The Pillow collaborators *)

Section Engine.

(** Division of a weighted sum of 8-bit samples by 255, back to 8 bits; the
    rounding is the codec's. *)
Variable div255 : Z -> Z.

(** [Image.resize(new_size, LANCZOS)], the resampling filter of the image
    library: the image it returns when it returns one. *)
Variable resize : image -> Z * Z -> image.

(** Whether [Image.resize] returns at all: it raises on a [new_size] the
    library cannot hold (a side beyond a C int, an image beyond the memory
    there is). *)
Variable can_resize : image -> Z * Z -> bool.

(** Modelled from the spec: [Image.new("RGBA", size, (0,0,0,0))], absent
    from src/; section 3, the Overlay "initialized fully transparent". *)
Definition new_layer (sz : Z * Z) : image :=
  Image (fst sz) (snd sz) (repeat transparent (Z.to_nat (fst sz * snd sz))).

(** One channel blended with weight [w] out of 255. *)
Definition blend (w under over : Z) : Z :=
  div255 (over * w + under * (255 - w)).

(** Modelled from the spec: [Image.paste(im, box, mask=im)], absent from
    src/; section 4.5, "paint overlay pixel using mark's own alpha as blend
    weight, combine with whatever overlay already holds", and section 4.3,
    the part of the mark that falls off the canvas is "silently clipped". *)
Definition paste (layer im : image) (box : Z * Z) : image :=
  map_pixels
    (fun x y p =>
       let sx := x - fst box in
       let sy := y - snd box in
       if inside im sx sy then
         let q := getpixel im sx sy in
         RGBA (blend (alpha q) (red p) (red q))
              (blend (alpha q) (green p) (green q))
              (blend (alpha q) (blue p) (blue q))
              (blend (alpha q) (alpha p) (alpha q))
       else p)
    layer.

(** Modelled from the spec: [Image.alpha_composite(original, layer)], absent
    from src/; section 4.5, [out = overlayColor*overlayAlpha +
    canvasColor*(1-overlayAlpha)] and [outAlpha = overlayAlpha +
    canvasAlpha*(1-overlayAlpha)], an alpha [a] standing for [a/255]. *)
Definition composite_pixel (c o : pixel) : pixel :=
  RGBA (blend (alpha o) (red c) (red o))
       (blend (alpha o) (green c) (green o))
       (blend (alpha o) (blue c) (blue o))
       (div255 (255 * alpha o + alpha c * (255 - alpha o))).

Definition alpha_composite (canvas overlay : image) : image :=
  map_pixels (fun x y c => composite_pixel c (getpixel overlay x y)) canvas.

(** ** AlphaModulator (lines 100-108) *)

(** [alpha.point(lambda i: int(i * opacity))]: Pillow calls the function on
    [0..255] to build a lookup table; an [int] that raises makes the call
    raise ([None]). *)
Fixpoint lookup_table (opacity : float) (i : Z) (n : nat) : option (list Z) :=
  match n with
  | O => Some []
  | S n' =>
      match Py.to_int (Py.of_int i * opacity)%float,
            lookup_table opacity (i + 1) n' with
      | Some v, Some l => Some (v :: l)
      | _, _ => None
      end
  end.

(** [putalpha] of the table's image of the alpha channel. *)
Definition point_alpha (lut : list Z) (im : image) : image :=
  map_pixels
    (fun _ _ p =>
       RGBA (red p) (green p) (blue p) (nth (Z.to_nat (alpha p)) lut 0))
    im.

Definition apply_opacity (opacity : float) (watermark_img : image)
    : option image :=
  if (opacity <? 1)%float then
    match lookup_table opacity 0 256 with
    | Some lut => Some (point_alpha lut watermark_img)
    | None => None
    end
  else Some watermark_img.


(** ** Configuration and validation (lines 26-61) *)

(** The [position] argument: a string, a tuple of integers, or something
    else. *)
Inductive position_spec :=
  | PosStr (s : string)
  | PosTuple (t : list Z)
  | PosOther.

Record arguments := Arguments {
  input_path : string;
  watermark_path : string;
  output_dir : string;
  margin : Z;
  position : position_spec;
  opacity : float;
  proportion : float;
  type_of_rescaling : string;
  mode : string;
  tile_padding : Z
}.

Definition lower_ascii (c : ascii) : ascii :=
  let n := nat_of_ascii c in
  if (65 <=? n)%nat && (n <=? 90)%nat then ascii_of_nat (n + 32) else c.

(** [str.lower()], on ASCII. *)
Fixpoint lower (s : string) : string :=
  match s with
  | EmptyString => EmptyString
  | String c s' => String (lower_ascii c) (lower s')
  end.

(** [str.endswith(suffix)]. *)
Definition endswith (s suffix : string) : bool :=
  let n := String.length s in
  let k := String.length suffix in
  (k <=? n)%nat && String.eqb (substring (n - k) k s) suffix.

(** [path.lower().endswith(('.png', '.jpg', '.jpeg'))]. *)
Definition image_extension (path : string) : bool :=
  existsb (endswith (lower path)) [".png"; ".jpg"; ".jpeg"]%string.

(** [position == name]. *)
Definition named (position : position_spec) (name : string) : bool :=
  match position with
  | PosStr s => String.eqb s name
  | _ => false
  end.

Definition named_positions : list string :=
  ["UPPER_LEFT"; "UPPER_RIGHT"; "LOWER_LEFT"; "LOWER_RIGHT"; "MIDDLE"]%string.

Definition is_tuple (position : position_spec) : bool :=
  match position with PosTuple _ => true | _ => false end.

Definition items (position : position_spec) : list Z :=
  match position with PosTuple t => t | _ => [] end.

(** Lines 44-49. *)
Definition position_error (position : position_spec) : option string :=
  if existsb (named position) named_positions then None
  else if negb (is_tuple position)
          || negb (Nat.eqb (List.length (items position)) 2) then
    Some "Position must be a tuple of (x, y) coordinates"%string
  else if negb (nth 0 (items position) 0 >=? 0)
          || negb (nth 1 (items position) 0 >=? 0) then
    Some "Position coordinates must be non-negative"%string
  else None.

(** The message of the first ValueError the validation raises, if any. *)
Definition validation_error (a : arguments) : option string :=
  if (proportion a <=? 0)%float then
    Some "Proportion must be greater than 0"%string
  else if (1 <? proportion a)%float then
    Some "Proportion must be less than or equal to 1"%string
  else if String.eqb (input_path a) "" || String.eqb (watermark_path a) ""
          || String.eqb (output_dir a) "" then
    Some "Image paths cannot be empty"%string
  else if negb (image_extension (input_path a))
          || negb (image_extension (watermark_path a)) then
    Some "Image paths must end with .png, .jpg, or .jpeg"%string
  else if margin a <? 0 then
    Some "Margin must be a non-negative integer"%string
  else
    match position_error (position a) with
    | Some msg => Some msg
    | None =>
        if negb (existsb (String.eqb (type_of_rescaling a))
                   ["LINEAR"; "AREA"]%string) then
          Some "Type of rescaling must be 'LINEAR' or 'AREA'"%string
        else if negb (existsb (String.eqb (mode a))
                        ["SINGLE"; "TILE"]%string) then
          Some "Mode must be 'SINGLE' or 'TILE'"%string
        else if negb ((0 <=? opacity a)%float && (opacity a <=? 1)%float) then
          Some "Opacity must be a float between 0.0 and 1.0"%string
        else if tile_padding a <? 0 then
          Some "Tile padding must be a non-negative integer"%string
        else None
    end.

(** ** The compositing operation (lines 63-163) *)

(** What [Image.open(path).convert("RGBA")] gives. *)
Inductive opened :=
  | Opened (im : image)
  | FileNotFoundError
  | OpenError.

(** The files at the start of the operation, as the decoder sees them. *)
Variable open_rgba : string -> opened.

(** Whether [Image.save] can write to a path (a known extension, a writable
    directory). *)
Variable can_save : string -> bool.

(** Whether [paste] takes the mark at an offset: the offsets of the SINGLE
    branch are any integers, and the library raises on a box it cannot
    hold (a coordinate beyond a C int). *)
Variable can_paste : image -> Z * Z -> bool.

(** The exceptions of the [try] block, by the [except] clause they reach. *)
Inductive exn := FileNotFound | OtherException.

(** A computation of the [try] block: a value, an exception, or a loop that
    did not end within the fuel given. *)
Inductive attempt (A : Type) :=
  | Ok (a : A)
  | Exn (e : exn)
  | Loops.

Arguments Ok {A} a.
Arguments Exn {A} e.
Arguments Loops {A}.

Definition bind {A B : Type} (m : attempt A) (k : A -> attempt B)
    : attempt B :=
  match m with
  | Ok a => k a
  | Exn e => Exn e
  | Loops => Loops
  end.

Notation "x <- m ;; k" := (bind m (fun x => k))
  (at level 61, m at next level, right associativity).

Definition open_image (path : string) : attempt image :=
  match open_rgba path with
  | Opened im => Ok im
  | FileNotFoundError => Exn FileNotFound
  | OpenError => Exn OtherException
  end.

(** A call that raises inside the [try] block when it has no value. *)
Definition or_raise {A : Type} (o : option A) : attempt A :=
  match o with
  | Some a => Ok a
  | None => Exn OtherException
  end.

(** Lines 94-98: the mark after the resizing step, when line 95 returns. *)
Definition resized (watermark_img : image) (new_size : Z * Z) : image :=
  if (fst new_size >? 0) && (snd new_size >? 0) then
    resize watermark_img new_size
  else watermark_img.

(** Lines 94-98 inside the [try] block: [resize] is called when both sides
    of [new_size] are positive, and an exception of it ends the block; the
    resize is skipped otherwise, and nothing is raised. *)
Definition resize_step (watermark_img : image) (new_size : Z * Z)
    : attempt image :=
  if (fst new_size >? 0) && (snd new_size >? 0)
     && negb (can_resize watermark_img new_size)
  then Exn OtherException
  else Ok (resized watermark_img new_size).

(** What the placement works on: the canvas, the mark as resized and
    modulated, and [new_size]. *)
Record prepared := Prepared {
  original : image;
  watermark_img : image;
  size_wanted : Z * Z
}.

(** Lines 65-108. *)
Definition prepare (a : arguments) : attempt prepared :=
  original <- open_image (input_path a) ;;
  watermark_img <- open_image (watermark_path a) ;;
  let '(width, height) := size original in
  let '(watermark_width, watermark_height) := size watermark_img in
  if (watermark_width =? 0) || (watermark_height =? 0) then
    Exn OtherException
  else
    let s := scale_factor (type_of_rescaling a) width height
               watermark_width watermark_height (proportion a) in
    new_size <- or_raise (new_size watermark_width watermark_height s) ;;
    watermark_img <- resize_step watermark_img new_size ;;
    watermark_img <- or_raise (apply_opacity (opacity a) watermark_img) ;;
    Ok (Prepared original watermark_img new_size).

(** *** TileLayoutEngine (lines 113-132) *)

Section TileLoops.

Context {A : Type}.

(** The body of the inner loop at a cell: [row_index], [col_index], [x],
    [y] and the state so far. *)
Variable cell : Z -> Z -> Z -> Z -> A -> A.
Variables width height x_step y_step : Z.

(** [while x < width: ...; x += x_step; col_index += 1]. *)
Fixpoint columns (fuel : nat) (row_index y col_index x : Z) (st : A)
    : option A :=
  match fuel with
  | O => None
  | S fuel' =>
      if x <? width then
        columns fuel' row_index y (col_index + 1) (x + x_step)
          (cell row_index col_index x y st)
      else Some st
  end.

(** [while y < height: col_index = 0; x = 0; ...; y += y_step;
    row_index += 1]. *)
Fixpoint rows (fuel : nat) (row_index y : Z) (st : A) : option A :=
  match fuel with
  | O => None
  | S fuel' =>
      if y <? height then
        match columns fuel' row_index y 0 0 st with
        | Some st' => rows fuel' (row_index + 1) (y + y_step) st'
        | None => None
        end
      else Some st
  end.

End TileLoops.

(** Lines 126-128: the mark is pasted where [(row_index + col_index) % 2 ==
    0]. *)
Definition stamp_if_even (watermark_img : image)
    (row_index col_index x y : Z) (watermark_layer : image) : image :=
  if (row_index + col_index) mod 2 =? 0 then
    paste watermark_layer watermark_img (x, y)
  else watermark_layer.

Definition tile (fuel : nat) (a : arguments) (p : prepared)
    (watermark_layer : image) : option image :=
  let '(width, height) := size (original p) in
  let x_step := fst (size_wanted p) + tile_padding a in
  let y_step := snd (size_wanted p) + tile_padding a in
  rows (stamp_if_even (watermark_img p)) width height x_step y_step
    fuel 0 0 watermark_layer.

(** *** Positioner (lines 134-147) *)

Definition positioner (width height wm_width wm_height margin : Z)
    (position : position_spec) : option (Z * Z) :=
  if named position "UPPER_LEFT" then Some (margin, margin)
  else if named position "UPPER_RIGHT" then
    Some (width - wm_width - margin, margin)
  else if named position "LOWER_LEFT" then
    Some (margin, height - wm_height - margin)
  else if named position "MIDDLE" then
    Some ((width - wm_width) / 2, (height - wm_height) / 2)
  else if is_tuple position then
    match items position with
    | [x; y] => Some (x, y)
    | _ => None
    end
  else Some (width - wm_width - margin, height - wm_height - margin).

(** The SINGLE branch; a tuple that is not a pair is refused by [paste]. *)
Definition single (a : arguments) (p : prepared) (watermark_layer : image)
    : attempt image :=
  let margin := if margin a >=? 0 then margin a else 0 in
  let '(width, height) := size (original p) in
  let '(wm_width, wm_height) := size (watermark_img p) in
  pos <- or_raise (positioner width height wm_width wm_height margin
                     (position a)) ;;
  Ok (paste watermark_layer (watermark_img p) pos).

(** Lines 110-147: the layer with its stamps. *)
Definition place (fuel : nat) (a : arguments) (p : prepared)
    : attempt image :=
  let watermark_layer := new_layer (size (original p)) in
  if String.eqb (mode a) "TILE" then
    match tile fuel a p watermark_layer with
    | Some layer => Ok layer
    | None => Loops
    end
  else single a p watermark_layer.

(** What is written: a PNG keeps the four channels, a JPEG is the image
    converted to RGB. *)
Inductive file :=
  | PngFile (im : image)
  | JpegFile (rgb : list (Z * Z * Z)) (sz : Z * Z).

Definition convert_rgb (im : image) : list (Z * Z * Z) :=
  map (fun p => (red p, green p, blue p)) (im_data im).

(** Lines 152-158. *)
Definition save (final_image : image) (path : string) : attempt file :=
  if negb (can_save path) then Exn OtherException
  else if existsb (endswith (lower path)) [".jpg"; ".jpeg"]%string then
    Ok (JpegFile (convert_rgb final_image) (size final_image))
  else Ok (PngFile final_image).

(** Line 146 inside the [try] block: the offset at which the SINGLE
    branch pastes, when it has one. *)
Definition single_offset (a : arguments) (p : prepared) : option (Z * Z) :=
  if String.eqb (mode a) "TILE" then None
  else
    let margin := if margin a >=? 0 then margin a else 0 in
    let '(width, height) := size (original p) in
    let '(wm_width, wm_height) := size (watermark_img p) in
    positioner width height wm_width wm_height margin (position a).

(** Lines 110-147 inside the [try] block: an exception of the [paste] of
    line 146 ends the block.  In the loops of the TILE branch the offsets
    lie inside the canvas, where the library takes the box of any mark it
    holds. *)
Definition place_step (fuel : nat) (a : arguments) (p : prepared)
    : attempt image :=
  match single_offset a p with
  | Some pos =>
      if can_paste (watermark_img p) pos then place fuel a p
      else Exn OtherException
  | None => place fuel a p
  end.

Definition try_block (fuel : nat) (a : arguments) : attempt file :=
  p <- prepare a ;;
  watermark_layer <- place_step fuel a p ;;
  let final_image := alpha_composite (original p) watermark_layer in
  save final_image (output_dir a).

(** The message printed by an [except] clause. *)
Inductive report := ErrorOpeningImages | UnexpectedError.

(** How a call of [add_watermark] ends: a ValueError of the validation
    reaches the caller; an exception of the [try] block is printed and the
    call returns; the output file is written; or a loop never ends. *)
Inductive outcome :=
  | Raises (msg : string)
  | Prints (r : report)
  | Saves (path : string) (f : file)
  | Hangs.

Definition add_watermark (fuel : nat) (a : arguments) : outcome :=
  match validation_error a with
  | Some msg => Raises msg
  | None =>
      match try_block fuel a with
      | Ok f => Saves (output_dir a) f
      | Exn FileNotFound => Prints ErrorOpeningImages
      | Exn OtherException => Prints UnexpectedError
      | Loops => Hangs
      end
  end.

(** ** The command line driver (lines 170-246) *)

(** A [pathlib.Path] by its parts: [str(p)] is [parent/stem] followed by
    [suffix]. *)
Record path := Path { parent : string; stem : string; suffix : string }.

Definition str (p : path) : string :=
  (parent p ++ "/" ++ stem p ++ suffix p)%string.

Variable is_file : path -> bool.
Variable is_dir : path -> bool.
Variable iterdir : path -> list path.

(** The lines of the console that matter here: the driver's own and the
    messages of [add_watermark]'s [except] clauses. *)
Inductive line :=
  | WatermarkNotFound
  | OutputDirectory
  | ProcessingDirectory
  | NoValidImage
  | NotAValidImage
  | ProcessingSingleFile
  | InputDoesNotExist
  | Reported (r : report)
  | ProcessFinished.

Inductive status :=
  | Normal
  | Aborted
  | Exited
  | ValueErrorRaised (msg : string)
  | NeverEnds.

(** The console so far, the files written so far, and how the run stands. *)
Record run := Run {
  console : list line;
  written : list (string * file);
  ended : status
}.

Definition valid_extensions : list string := [".png"; ".jpg"; ".jpeg"]%string.

(** [f.suffix.lower() in valid_extensions]. *)
Definition valid_suffix (f : path) : bool :=
  existsb (String.eqb (lower (suffix f))) valid_extensions.

(** [output_dir / f"{stem}_watermarked.png"]. *)
Definition output_filepath (output_dir image_file : path) : string :=
  (str output_dir ++ "/" ++ stem image_file ++ "_watermarked.png")%string.

(** The [for image_file in progress] loop (lines 204-219), [call] being the
    call of [add_watermark] on a file. *)
Fixpoint for_each (call : path -> outcome) (image_files : list path)
    (r : run) : run :=
  match image_files with
  | [] => r
  | image_file :: rest =>
      match call image_file with
      | Raises msg => Run (console r) (written r) (ValueErrorRaised msg)
      | Hangs => Run (console r) (written r) NeverEnds
      | Prints m =>
          for_each call rest
            (Run (console r ++ [Reported m]) (written r) (ended r))
      | Saves out f =>
          for_each call rest
            (Run (console r) (written r ++ [(out, f)]) (ended r))
      end
  end.

Definition run_watermarker (fuel : nat)
    (input_path watermark_path output_dir : path)
    (mode position : string) (proportion : float) (margin tile_padding : Z)
    (rescaling_type : string) (opacity : float) : run :=
  let call image_file :=
    add_watermark fuel
      (Arguments (str image_file) (str watermark_path)
         (output_filepath output_dir image_file) margin (PosStr position)
         opacity proportion rescaling_type mode tile_padding) in
  let finish r :=
    match ended r with
    | Normal => Run (console r ++ [ProcessFinished]) (written r) Normal
    | _ => r
    end in
  if negb (is_file watermark_path) then Run [WatermarkNotFound] [] Aborted
  else if is_dir input_path then
    let image_files := filter valid_suffix (iterdir input_path) in
    match image_files with
    | [] => Run [OutputDirectory; ProcessingDirectory; NoValidImage] [] Exited
    | _ =>
        finish (for_each call image_files
                  (Run [OutputDirectory; ProcessingDirectory] [] Normal))
    end
  else if is_file input_path then
    if negb (valid_suffix input_path) then
      Run [OutputDirectory; NotAValidImage] [] Aborted
    else
      finish (for_each call [input_path]
                (Run [OutputDirectory; ProcessingSingleFile] [] Normal))
  else Run [OutputDirectory; InputDoesNotExist] [] Aborted.

End Engine.

Arguments Ok {A} a.
Arguments Exn {A} e.
Arguments Loops {A}.

(** ** The configuration the spec asks for (WatermarkConfig, section 3) *)

Definition valid_position (pos : position_spec) : Prop :=
  (exists s, pos = PosStr s /\ In s named_positions)
  \/ (exists x y, pos = PosTuple [x; y] /\ 0 <= x /\ 0 <= y).

Definition valid_config (a : arguments) : Prop :=
  (0 <? proportion a)%float = true /\ (proportion a <=? 1)%float = true
  /\ (0 <=? opacity a)%float = true /\ (opacity a <=? 1)%float = true
  /\ input_path a <> ""%string /\ watermark_path a <> ""%string
  /\ output_dir a <> ""%string
  /\ image_extension (input_path a) = true
  /\ image_extension (watermark_path a) = true
  /\ 0 <= margin a
  /\ valid_position (position a)
  /\ In (type_of_rescaling a) ["LINEAR"; "AREA"]%string
  /\ In (mode a) ["SINGLE"; "TILE"]%string
  /\ 0 <= tile_padding a.

(** What the validation is meant to refuse, field by field, in the
    comparisons of the code. *)
Definition refused (a : arguments) : Prop :=
  (proportion a <=? 0)%float = true \/ (1 <? proportion a)%float = true
  \/ (0 <=? opacity a)%float && (opacity a <=? 1)%float = false
  \/ margin a < 0 \/ tile_padding a < 0
  \/ ~ In (type_of_rescaling a) ["LINEAR"; "AREA"]%string
  \/ ~ In (mode a) ["SINGLE"; "TILE"]%string
  \/ position_error (position a) <> None
  \/ image_extension (input_path a) = false
  \/ image_extension (watermark_path a) = false.

(** An image as Pillow can hold one: sides positive and below [2^31]. *)
Definition realistic (im : image) : Prop :=
  0 < im_width im < 2 ^ 31 /\ 0 < im_height im < 2 ^ 31.

(** [new_size] of line 91 for a call on two images. *)
Definition wanted_size (a : arguments) (canvas mark : image)
    : option (Z * Z) :=
  new_size (im_width mark) (im_height mark)
    (scale_factor (type_of_rescaling a) (im_width canvas) (im_height canvas)
       (im_width mark) (im_height mark) (proportion a)).

(** Line 95 does not raise on a call: when [new_size] has two positive
    sides the library can build the resized mark. *)
Definition resize_returns (can_resize : image -> Z * Z -> bool)
    (a : arguments) (canvas mark : image) : Prop :=
  forall w h, wanted_size a canvas mark = Some (w, h) -> 0 < w -> 0 < h ->
    can_resize mark (w, h) = true.

(** Line 146 does not raise on a call: the library takes the mark the call
    prepared at the offset the Positioner gives for it. *)
Definition paste_returns (can_paste : image -> Z * Z -> bool)
    (resize : image -> Z * Z -> image) (a : arguments)
    (canvas mark : image) : Prop :=
  forall sz wm pos,
    wanted_size a canvas mark = Some sz ->
    apply_opacity (opacity a) (resized resize mark sz) = Some wm ->
    positioner (im_width canvas) (im_height canvas) (im_width wm)
      (im_height wm) (margin a) (position a) = Some pos ->
    can_paste wm pos = true.

(** The same call with another margin and another position. *)
Definition with_placement (a : arguments) (m : Z) (pos : position_spec)
    : arguments :=
  Arguments (input_path a) (watermark_path a) (output_dir a) m pos
    (opacity a) (proportion a) (type_of_rescaling a) (mode a)
    (tile_padding a).

(** The files a run wrote and the errors it printed. *)
Definition successes (r : run) : nat := List.length (written r).

Definition failures (r : run) : nat :=
  List.length
    (filter (fun l => match l with Reported _ => true | _ => false end)
       (console r)).



(** ** Observing the tiling loops *)

(** The loop body that records where the mark is stamped instead of
    stamping it. *)
Definition note_if_even (row_index col_index x y : Z)
    (offsets : list (Z * Z)) : list (Z * Z) :=
  if (row_index + col_index) mod 2 =? 0 then offsets ++ [(x, y)]
  else offsets.

(** The offsets at which the loops of lines 120-132 stamp the mark, in
    order. *)
Definition stamp_offsets (fuel : nat) (width height x_step y_step : Z)
    : option (list (Z * Z)) :=
  rows note_if_even width height x_step y_step fuel 0 0 [].

(** The number of cells the loops go through, stamped or not. *)
Definition cells_visited (fuel : nat) (width height x_step y_step : Z)
    : option nat :=
  rows (fun _ _ _ _ n => S n) width height x_step y_step fuel 0 0 O.

(** The quotient rounded up. *)
Definition ceil_div (a b : Z) : Z := (a + b - 1) / b.

(** The integers [c, c+1, ..., c+n-1]. *)
Definition zrange (c : Z) (n : nat) : list Z :=
  map (fun k => c + Z.of_nat k) (seq 0 n).

(** ** Sample collaborators and images *)

(** Division by 255 rounded to the nearest integer. *)
Definition round255 (x : Z) : Z := (x + 127) / 255.

(** Nearest-neighbour resampling. *)
Definition nearest (im : image) (sz : Z * Z) : image :=
  Image (fst sz) (snd sz)
    (mapi (fun i _ =>
             getpixel im ((i mod fst sz) * im_width im / fst sz)
                         ((i / fst sz) * im_height im / snd sz))
       0 (repeat transparent (Z.to_nat (fst sz * snd sz)))).

(** A library that resizes to any size whose sides fit a C int. *)
Definition fits_c_int (_ : image) (sz : Z * Z) : bool :=
  (fst sz <? 2 ^ 31) && (snd sz <? 2 ^ 31).

(** A library that pastes at any box whose four coordinates fit a C
    int. *)
Definition box_fits_c_int (im : image) (pos : Z * Z) : bool :=
  forallb (fun n => (- 2 ^ 31 <=? n) && (n <? 2 ^ 31))
    [fst pos; snd pos; fst pos + im_width im; snd pos + im_height im].

(** An image of one colour. *)
Definition solid (sz : Z * Z) (p : pixel) : image :=
  Image (fst sz) (snd sz) (repeat p (Z.to_nat (fst sz * snd sz))).

(** A disk: the files that decode, by name; the other names are missing. *)
Definition disk (files : list (string * opened)) (path : string) : opened :=
  match find (fun f => String.eqb (fst f) path) files with
  | Some f => snd f
  | None => FileNotFoundError
  end.

Definition half : float := Eval cbv in (1 / 2)%float.

Definition grey : pixel := RGBA 128 128 128 255.
Definition ink : pixel := RGBA 200 30 30 200.

Definition hundredth : float := Eval cbv in (1 / 100)%float.

Definition canvas30 : image := solid (30, 30) grey.
Definition mark40 : image := solid (40, 40) ink.
Definition canvas4 : image := solid (4, 4) grey.
Definition mark2 : image := solid (2, 2) ink.

Definition sample_disk : string -> opened :=
  disk [("canvas.png", Opened canvas30); ("mark.png", Opened mark40);
        ("small.png", Opened canvas4); ("dot.png", Opened mark2);
        ("./mark.png", Opened mark2); ("./photos/a.png", Opened canvas4);
        ("./photos/broken.png", OpenError)]%string.

Definition always (_ : string) : bool := true.

(** A 40 x 40 mark on a 30 x 30 canvas at proportion 0.01, tiled. *)
Definition tile_args (padding : Z) : arguments :=
  Arguments "canvas.png" "mark.png" "out.png" 0 (PosStr "LOWER_RIGHT")
    1 hundredth "LINEAR" "TILE" padding.

(** A call whose proportion and a call whose opacity is not a number. *)
Definition nan_proportion_args : arguments :=
  Arguments "canvas.png" "mark.png" "out.png" 0 (PosStr "LOWER_RIGHT")
    1 nan "LINEAR" "SINGLE" 10.

Definition nan_opacity_args : arguments :=
  Arguments "canvas.png" "mark.png" "out.png" 0 (PosStr "LOWER_RIGHT")
    nan hundredth "LINEAR" "SINGLE" 10.

(** A 2 x 2 mark on a 4 x 4 canvas at proportion 0.5, placed once. *)
Definition single_args (margin : Z) (pos : position_spec) : arguments :=
  Arguments "small.png" "dot.png" "out.png" margin pos
    1 half "LINEAR" "SINGLE" 10.


(** A directory of photographs beside the mark. *)
Definition mark_path : path := Path "." "mark" ".png".
Definition photos : path := Path "." "photos" "".
Definition out_path : path := Path "." "out" "".
Definition photo_a : path := Path "./photos" "a" ".png".
Definition photo_broken : path := Path "./photos" "broken" ".png".

Definition same_path (p q : path) : bool := String.eqb (str p) (str q).

(** A run of the driver over the directory holding [files]. *)
Definition sample_run (files : list path) : run :=
  run_watermarker round255 nearest fits_c_int sample_disk always box_fits_c_int
    (fun p => same_path p mark_path) (fun p => same_path p photos)
    (fun _ => files) 20 photos mark_path out_path
    "SINGLE" "LOWER_RIGHT" tenth 20 50 "LINEAR" half.

(** * Properties *)

(** ** Binary64 arithmetic: signs and magnitudes *)

Module PyFacts.

Lemma digits2_size (p : positive) : digits2_pos p = Pos.size p.
Proof. induction p; simpl; congruence. Qed.

(** A positive number lies between the powers of two its digits say. *)
Lemma digits_bounds (p : positive) :
  2 ^ (Z.pos (digits2_pos p) - 1) <= Z.pos p < 2 ^ Z.pos (digits2_pos p).
Proof.
  rewrite digits2_size. split.
  - pose proof (Pos.size_le p) as H.
    assert (Hz : 2 ^ Z.pos (Pos.size p) <= 2 * Z.pos p).
    { change (2 * Z.pos p) with (Z.pos p~0).
      rewrite <- Pos2Z.inj_pow. apply Pos2Z.pos_le_pos. exact H. }
    replace (Z.pos (Pos.size p)) with (1 + (Z.pos (Pos.size p) - 1)) in Hz by lia.
    rewrite Z.pow_add_r in Hz by lia. lia.
  - pose proof (Pos.size_gt p) as H.
    rewrite <- Pos2Z.inj_pow. apply Pos2Z.pos_lt_pos. exact H.
Qed.

Lemma digits_nonneg (m : Z) : 0 <= Zdigits2 m.
Proof. destruct m; simpl; lia. Qed.

(** Below [2^k], at most [k] digits. *)
Lemma digits_le (m k : Z) : 0 <= k -> 0 <= m < 2 ^ k -> Zdigits2 m <= k.
Proof.
  intros Hk [H0 H]. destruct m as [|p|p]; simpl; try lia.
  destruct (Z_lt_le_dec k (Z.pos (digits2_pos p))) as [Hlt|]; [|lia].
  exfalso. pose proof (digits_bounds p) as [Hlo _].
  assert (2 ^ k <= 2 ^ (Z.pos (digits2_pos p) - 1))
    by (apply Z.pow_le_mono_r; lia).
  lia.
Qed.

Lemma digits_upper (m : Z) : 0 <= m -> m < 2 ^ Zdigits2 m.
Proof.
  destruct m as [|p|p]; simpl; intros; try lia.
  apply digits_bounds.
Qed.


Lemma shr_1_m (r : shr_record) :
  0 <= shr_m r -> shr_m (shr_1 r) = shr_m r / 2.
Proof.
  destruct r as [m b s]. simpl. intros Hm.
  rewrite <- Z.div2_div.
  destruct m as [|[p|p|]|p]; simpl; try reflexivity; lia.
Qed.

Lemma iter_shr_m (p : positive) :
  forall r, 0 <= shr_m r ->
    shr_m (iter_pos shr_1 p r) = shr_m r / 2 ^ Z.pos p.
Proof.
  induction p as [p IH|p IH|]; intros r Hr; simpl iter_pos.
  - assert (H1 : 0 <= shr_m (shr_1 r)).
    { rewrite shr_1_m by exact Hr. apply Z.div_pos; lia. }
    assert (H2 : 0 <= shr_m (iter_pos shr_1 p (shr_1 r))).
    { rewrite IH by exact H1. apply Z.div_pos; [exact H1|]. apply Z.pow_pos_nonneg; lia. }
    rewrite IH by exact H2. rewrite IH by exact H1. rewrite shr_1_m by exact Hr.
    rewrite !Z.div_div by (try apply Z.pow_pos_nonneg; lia).
    f_equal.
    replace (Z.pos p~1) with (1 + Z.pos p + Z.pos p) by lia.
    rewrite !Z.pow_add_r by lia. rewrite Z.pow_1_r. lia.
  - assert (H2 : 0 <= shr_m (iter_pos shr_1 p r)).
    { rewrite IH by exact Hr. apply Z.div_pos; [exact Hr|]. apply Z.pow_pos_nonneg; lia. }
    rewrite IH by exact H2. rewrite IH by exact Hr.
    rewrite Z.div_div by (try apply Z.pow_pos_nonneg; lia).
    f_equal.
    replace (Z.pos p~0) with (Z.pos p + Z.pos p) by lia.
    rewrite Z.pow_add_r by lia. reflexivity.
  - rewrite shr_1_m by exact Hr. reflexivity.
Qed.

Lemma shr_m_of_loc (m : Z) (l : location) : shr_m (shr_record_of_loc m l) = m.
Proof. destruct l as [|[]]; reflexivity. Qed.

(** A right shift to the exponent of the format: the exponent does not
    decrease, the mantissa is divided, and the magnitude does not grow. *)
Lemma shr_fexp_bounds (m e : Z) (l : location) :
  0 <= m ->
  exists n, 0 <= n
    /\ snd (shr_fexp prec emax m e l)
       = Z.max e (fexp prec emax (Zdigits2 m + e))
    /\ snd (shr_fexp prec emax m e l) = e + n
    /\ shr_m (fst (shr_fexp prec emax m e l)) = m / 2 ^ n.
Proof.
  intros Hm. unfold shr_fexp, shr.
  destruct (fexp prec emax (Zdigits2 m + e) - e) as [|p|p] eqn:E; simpl.
  - exists 0. rewrite shr_m_of_loc, Z.div_1_r. repeat split; lia.
  - exists (Z.pos p). rewrite iter_shr_m by (rewrite shr_m_of_loc; exact Hm).
    rewrite shr_m_of_loc. repeat split; lia.
  - exists 0. rewrite shr_m_of_loc, Z.div_1_r. repeat split; lia.
Qed.

Lemma div_pow2_digits (m n : Z) :
  0 <= m -> 0 <= n ->
  0 <= m / 2 ^ n /\ Zdigits2 (m / 2 ^ n) <= Z.max 0 (Zdigits2 m - n).
Proof.
  intros Hm Hn.
  assert (Hp : 0 < 2 ^ n) by (apply Z.pow_pos_nonneg; lia).
  split; [apply Z.div_pos; lia|].
  apply digits_le; [lia|]. split; [apply Z.div_pos; lia|].
  pose proof (digits_upper m Hm) as Hu. pose proof (digits_nonneg m) as Hd.
  destruct (Z_le_gt_dec n (Zdigits2 m)) as [Hle|Hgt].
  - rewrite Z.max_r by lia. apply Z.div_lt_upper_bound; [exact Hp|].
    rewrite <- Z.pow_add_r by lia. replace (n + (Zdigits2 m - n)) with (Zdigits2 m) by lia.
    exact Hu.
  - rewrite Z.max_l by lia. simpl. rewrite Z.div_small; [lia|].
    split; [exact Hm|].
    assert (2 ^ Zdigits2 m <= 2 ^ n) by (apply Z.pow_le_mono_r; lia). lia.
Qed.

Lemma div_pow2_pos (m n : Z) :
  0 < m -> 0 <= n -> n < Zdigits2 m -> 0 < m / 2 ^ n.
Proof.
  intros Hm Hn Hlt.
  apply Z.div_str_pos. split; [apply Z.pow_pos_nonneg; lia|].
  destruct m as [|p|p]; try lia. simpl in Hlt.
  pose proof (digits_bounds p) as [Hlo _].
  assert (2 ^ n <= 2 ^ (Z.pos (digits2_pos p) - 1)) by (apply Z.pow_le_mono_r; lia).
  lia.
Qed.

Lemma round_nearest_even_bounds (m : Z) (l : location) :
  m <= round_nearest_even m l <= m + 1.
Proof.
  destruct l as [|[]]; simpl; try lia. destruct (Z.even m); lia.
Qed.

Lemma digits_succ (m m' : Z) :
  0 <= m -> 0 <= m' <= m + 1 -> Zdigits2 m' <= Zdigits2 m + 1.
Proof.
  intros Hm Hm'. pose proof (digits_nonneg m).
  apply digits_le; [lia|]. pose proof (digits_upper m Hm).
  rewrite Z.pow_add_r by lia. lia.
Qed.

Lemma digits_pos (m : Z) : 0 < m -> 0 < Zdigits2 m.
Proof. destruct m; simpl; lia. Qed.


Lemma fexp_eq (k : Z) : fexp prec emax k = Z.max (k - 53) (-1074).
Proof. reflexivity. Qed.

(** Rounding a non-negative mantissa: the sign is kept, the exponent does
    not decrease, and below the overflow threshold the result is finite, one
    binade above the input at most; it is zero only on underflow. *)
Lemma round_aux_bounds (sx : bool) (m e : Z) (l : location) (K : Z) :
  0 <= m -> Zdigits2 m + e <= K -> e <= 971 -> -1074 <= K <= 1023 ->
  match binary_round_aux prec emax sx m e l with
  | S754_zero s => s = sx /\ (m = 0 \/ e < -1074)
  | S754_finite s m' e' =>
      s = sx /\ e <= e' /\ Zdigits2 (Z.pos m') + e' <= K + 1
  | _ => False
  end.
Proof.
  intros Hm HK He HKr. unfold binary_round_aux.
  destruct (shr_fexp_bounds m e l Hm) as (n1 & Hn1 & He1 & He1' & Hm1).
  destruct (shr_fexp prec emax m e l) as [r1 e1]. simpl in He1, He1', Hm1.
  pose proof (div_pow2_digits m n1 Hm Hn1) as [Hq1 Hd1]. rewrite <- Hm1 in Hq1, Hd1.
  pose proof (round_nearest_even_bounds (shr_m r1) (loc_of_shr_record r1)) as Hr.
  set (m1 := round_nearest_even (shr_m r1) (loc_of_shr_record r1)) in *.
  assert (Hm1' : 0 <= m1) by lia.
  pose proof (digits_succ (shr_m r1) m1 Hq1 ltac:(lia)) as Hds.
  destruct (shr_fexp_bounds m1 e1 loc_Exact Hm1') as (n2 & Hn2 & He2 & He2' & Hm2).
  destruct (shr_fexp prec emax m1 e1 loc_Exact) as [r2 e2]. simpl in He2, He2', Hm2.
  pose proof (div_pow2_digits m1 n2 Hm1' Hn2) as [Hq2 Hd2]. rewrite <- Hm2 in Hq2, Hd2.
  rewrite fexp_eq in He1, He2.
  pose proof (digits_nonneg m) as Hdm. pose proof (digits_nonneg m1) as Hdm1.
  destruct (shr_m r2) as [|p|p] eqn:Ep.
  - split; [reflexivity|].
    destruct (Z.eq_dec m 0) as [|Hne]; [left; assumption|right].
    destruct (Z_lt_le_dec e (-1074)) as [|Hge]; [assumption|exfalso].
    assert (Hmpos : 0 < m) by lia.
    pose proof (digits_pos m Hmpos) as Hdp.
    assert (H1 : 0 < shr_m r1).
    { rewrite Hm1. apply div_pow2_pos; lia. }
    assert (Hm1pos : 0 < m1) by lia.
    pose proof (digits_pos m1 Hm1pos) as Hdp1.
    assert (H2 : 0 < m1 / 2 ^ n2) by (apply div_pow2_pos; lia).
    lia.
  - assert (Hle : e2 <= 971) by lia.
    change (emax - prec) with 971.
    apply Z.leb_le in Hle. rewrite Hle.
    change (Zdigits2 (Z.pos p)) with (Z.pos (digits2_pos p)) in *.
    simpl Zdigits2 in Hd2.
    repeat split; lia.
  - lia.
Qed.


Lemma valid_finite (s : bool) (m : positive) (e : Z) :
  valid_binary (S754_finite s m e) = true ->
  e = Z.max (Z.pos (digits2_pos m) + e - 53) (-1074) /\ e <= 971.
Proof.
  unfold SpecFloat.valid_binary, bounded, canonical_mantissa.
  rewrite fexp_eq.
  intros H. apply andb_true_iff in H. destruct H as [H1 H2].
  apply Z.eqb_eq in H1. apply Z.leb_le in H2.
  change (emax - prec) with 971 in H2. lia.
Qed.

Lemma digits_mul (a b : positive) :
  Zdigits2 (Z.pos (a * b)) <= Z.pos (digits2_pos a) + Z.pos (digits2_pos b).
Proof.
  apply digits_le; [lia|]. split; [lia|].
  pose proof (digits_bounds a) as [_ Ha]. pose proof (digits_bounds b) as [_ Hb].
  rewrite Z.pow_add_r by lia. rewrite Pos2Z.inj_mul.
  apply Z.mul_lt_mono_nonneg; lia.
Qed.

(** The product of two small non-negative doubles is finite. *)
Lemma mul_mag (x y : float) (Kx Ky : Z) :
  Py.mag_le Kx (Prim2SF x) -> Py.mag_le Ky (Prim2SF y) ->
  -1074 <= Kx + Ky <= 1023 ->
  Py.mag_le (Kx + Ky + 1) (Prim2SF (x * y)).
Proof.
  intros Hx Hy HK. rewrite mul_spec.
  pose proof (Prim2SF_valid x) as Vx. pose proof (Prim2SF_valid y) as Vy.
  destruct (Prim2SF x) as [sx|sx| |sx mx ex], (Prim2SF y) as [sy|sy| |sy my ey];
    cbv beta iota delta [Py.mag_le] in Hx, Hy |- *;
    try contradiction; try exact I.
  destruct Hx as [-> Hx], Hy as [-> Hy].
  apply valid_finite in Vx, Vy.
  pose proof (digits_mul mx my) as Hd.
  unfold SF64mul, SFmul.
  assert (H0 : 0 <= Z.pos (mx * my)) by lia.
  assert (H1 : Zdigits2 (Z.pos (mx * my)) + (ex + ey) <= Kx + Ky) by lia.
  assert (H2 : ex + ey <= 971) by lia.
  pose proof (round_aux_bounds (xorb false false) (Z.pos (mx * my)) (ex + ey)
                loc_Exact (Kx + Ky) H0 H1 H2 HK) as H.
  destruct (binary_round_aux prec emax (xorb false false) (Z.pos (mx * my))
              (ex + ey) loc_Exact); try contradiction; try exact I.
  destruct H as (-> & _ & H). split; [reflexivity|exact H].
Qed.


(** The quotient of a small non-negative double by a positive one that is
    not tiny is finite. *)
Lemma div_mag (x y : float) (Kx Ky : Z) :
  Py.mag_le Kx (Prim2SF x) -> Py.mag_ge Ky (Prim2SF y) ->
  -1074 <= Kx - Ky + 1 <= 1023 ->
  Py.mag_le (Kx - Ky + 2) (Prim2SF (x / y)).
Proof.
  intros Hx Hy HK. rewrite div_spec.
  pose proof (Prim2SF_valid x) as Vx. pose proof (Prim2SF_valid y) as Vy.
  destruct (Prim2SF x) as [sx|sx| |sx mx ex], (Prim2SF y) as [sy|sy| |sy my ey];
    cbv beta iota delta [Py.mag_le Py.mag_ge] in Hx, Hy |- *;
    try contradiction; try exact I.
  destruct Hx as [-> Hx], Hy as [-> Hy].
  apply valid_finite in Vx, Vy.
  unfold SF64div, SFdiv, SFdiv_core_binary.
  change (Zdigits2 (Z.pos mx)) with (Z.pos (digits2_pos mx)).
  change (Zdigits2 (Z.pos my)) with (Z.pos (digits2_pos my)).
  set (dx := Z.pos (digits2_pos mx)) in *. set (dy := Z.pos (digits2_pos my)) in *.
  rewrite fexp_eq.
  set (e' := Z.min (Z.max (dx + ex - (dy + ey) - 53) (-1074)) (ex - ey)).
  set (s := ex - ey - e').
  assert (Hs : 0 <= s) by (unfold s, e'; lia).
  set (m' := match s with
             | 0 => Z.pos mx
             | Z.pos _ => Z.shiftl (Z.pos mx) s
             | Z.neg _ => 0
             end).
  assert (Hm' : m' = Z.pos mx * 2 ^ s).
  { unfold m'. destruct s as [|p|p] eqn:Es; try lia.
    rewrite Z.shiftl_mul_pow2 by lia. reflexivity. }
  clearbody m'.
  pose proof (digits_bounds mx) as [_ Hux]. pose proof (digits_bounds my) as [Hly _].
  fold dx in Hux. fold dy in Hly.
  assert (Hm'u : 0 < m' < 2 ^ (dx + s)).
  { rewrite Hm', Z.pow_add_r by (unfold dx; lia).
    assert (0 < 2 ^ s) by (apply Z.pow_pos_nonneg; lia). nia. }
  pose proof (Z_div_mod m' (Z.pos my) ltac:(lia)) as Hdiv.
  destruct (Z.div_eucl m' (Z.pos my)) as [q r]. destruct Hdiv as [Hq Hr].
  assert (Hq0 : 0 <= q) by nia.
  assert (Hdq : Zdigits2 q <= Z.max 0 (dx + s - dy + 1)).
  { apply digits_le; [lia|]. split; [exact Hq0|].
    destruct (Z_le_gt_dec 0 (dx + s - dy + 1)) as [Hk|Hk].
    - rewrite Z.max_r by lia.
      destruct (Z_lt_le_dec q (2 ^ (dx + s - dy + 1))) as [|Hge]; [assumption|exfalso].
      assert (Hp : 2 ^ (dy - 1) * 2 ^ (dx + s - dy + 1) <= Z.pos my * q).
      { apply Z.mul_le_mono_nonneg; try lia; apply Z.pow_nonneg; lia. }
      rewrite <- Z.pow_add_r in Hp by (unfold dy; lia).
      replace (dy - 1 + (dx + s - dy + 1)) with (dx + s) in Hp by lia. lia.
    - rewrite Z.max_l by lia. change (2 ^ 0) with 1.
      assert (2 ^ (dx + s) <= 2 ^ (dy - 1)) by (apply Z.pow_le_mono_r; lia).
      nia. }
  assert (H1 : Zdigits2 q + e' <= Kx - Ky + 1) by (unfold s, e' in *; lia).
  assert (H2 : e' <= 971) by (unfold e'; lia).
  pose proof (round_aux_bounds (xorb false false) q e' (new_location (Z.pos my) r)
                (Kx - Ky + 1) Hq0 H1 H2 HK) as H.
  destruct (binary_round_aux prec emax (xorb false false) q e'
              (new_location (Z.pos my) r)); try contradiction; try exact I.
  destruct H as (-> & _ & H). split; [reflexivity|].
  change (Zdigits2 (Z.pos m)) with (Z.pos (digits2_pos m)) in H. lia.
Qed.


(** The square root of a non-negative finite double is finite. *)
Lemma sqrt_mag (x : float) (Kx : Z) :
  Py.mag_le Kx (Prim2SF x) -> Kx <= 1023 ->
  Py.mag_le ((Kx + 1) / 2 + 1) (Prim2SF (PrimFloat.sqrt x)).
Proof.
  intros Hx HK. rewrite sqrt_spec.
  pose proof (Prim2SF_valid x) as Vx.
  destruct (Prim2SF x) as [sx|sx| |sx mx ex];
    cbv beta iota delta [Py.mag_le] in Hx |- *;
    try contradiction; try exact I.
  destruct Hx as [-> Hx].
  apply valid_finite in Vx.
  unfold SF64sqrt, SFsqrt, SFsqrt_core_binary.
  change (Zdigits2 (Z.pos mx)) with (Z.pos (digits2_pos mx)).
  set (dx := Z.pos (digits2_pos mx)) in *.
  rewrite fexp_eq, !Z.div2_div.
  set (e' := Z.min (Z.max ((dx + ex + 1) / 2 - 53) (-1074)) (ex / 2)).
  set (s := ex - 2 * e').
  assert (Hs : 0 <= s) by (unfold s, e'; Z.div_mod_to_equations; lia).
  set (m' := match s with
             | 0 => Z.pos mx
             | Z.pos _ => Z.shiftl (Z.pos mx) s
             | Z.neg _ => 0
             end).
  assert (Hm' : m' = Z.pos mx * 2 ^ s).
  { unfold m'. destruct s as [|p|p] eqn:Es; try lia.
    rewrite Z.shiftl_mul_pow2 by lia. reflexivity. }
  clearbody m'.
  pose proof (digits_bounds mx) as [_ Hux]. fold dx in Hux.
  assert (Hm'u : 0 < m' < 2 ^ (dx + s)).
  { rewrite Hm', Z.pow_add_r by (unfold dx; lia).
    assert (0 < 2 ^ s) by (apply Z.pow_pos_nonneg; lia). nia. }
  pose proof (Z.sqrtrem_spec m' ltac:(lia)) as Hsq.
  destruct (Z.sqrtrem m') as [q r]. destruct Hsq as [Hq Hr].
  assert (Hq0 : 0 <= q) by lia.
  set (k := (dx + s + 1) / 2).
  assert (Hk : 0 <= k /\ dx + s <= 2 * k)
    by (unfold k, dx in *; Z.div_mod_to_equations; lia).
  assert (Hdq : Zdigits2 q <= k).
  { apply digits_le; [lia|]. split; [exact Hq0|].
    destruct (Z_lt_le_dec q (2 ^ k)) as [|Hge]; [assumption|exfalso].
    assert (Hp : 2 ^ k * 2 ^ k <= q * q).
    { apply Z.mul_le_mono_nonneg; try lia; apply Z.pow_nonneg; lia. }
    rewrite <- Z.pow_add_r in Hp by lia.
    assert (2 ^ (dx + s) <= 2 ^ (k + k)) by (apply Z.pow_le_mono_r; lia).
    lia. }
  assert (Hmag : -1073 <= dx + ex) by (unfold dx in *; lia).
  assert (H1 : Zdigits2 q + e' <= (Kx + 1) / 2)
    by (unfold k, s, e' in *; Z.div_mod_to_equations; lia).
  assert (H2 : e' <= 971) by (unfold e'; Z.div_mod_to_equations; lia).
  assert (HK' : -1074 <= (Kx + 1) / 2 <= 1023)
    by (Z.div_mod_to_equations; lia).
  pose proof (round_aux_bounds false q e'
                (if r =? 0 then loc_Exact
                 else loc_Inexact (if r <=? q then Lt else Gt))
                ((Kx + 1) / 2) Hq0 H1 H2 HK') as H.
  destruct (binary_round_aux prec emax false q e'
              (if r =? 0 then loc_Exact
               else loc_Inexact (if r <=? q then Lt else Gt)));
    try contradiction; try exact I.
  destruct H as (-> & _ & H). split; [reflexivity|].
  change (Zdigits2 (Z.pos m)) with (Z.pos (digits2_pos m)) in H. lia.
Qed.

Lemma of_int_spec (n : Z) :
  0 <= n < 2 ^ 63 ->
  Prim2SF (Py.of_int n) = binary_normalize prec emax n 0 false.
Proof.
  intros Hn. unfold Py.of_int.
  assert (E : binary_normalize prec emax n 0 false
              = Prim2SF (of_uint63 (Uint63.of_Z n))).
  { rewrite of_uint63_spec, Uint63.of_Z_spec, Z.mod_small; [reflexivity|].
    exact Hn. }
  rewrite E, SF2Prim_Prim2SF. reflexivity.
Qed.

Lemma iter_xO (p k : positive) :
  Z.pos (Pos.iter xO p k) = Z.pos p * 2 ^ Z.pos k.
Proof.
  induction k as [|k IH] using Pos.peano_ind.
  - simpl. lia.
  - rewrite Pos.iter_succ, Pos2Z.inj_succ, Z.pow_succ_r by lia.
    rewrite Pos2Z.inj_xO, IH. lia.
Qed.

(** The double of a positive integer below [2^k]: positive, at least one,
    below [2^(k+1)]. *)
Lemma of_int_mag (n k : Z) :
  0 < n < 2 ^ k -> 0 <= k <= 63 ->
  Py.mag_ge 1 (Prim2SF (Py.of_int n)) /\ Py.mag_le (k + 1) (Prim2SF (Py.of_int n)).
Proof.
  intros Hn Hk.
  assert (Hn63 : 0 <= n < 2 ^ 63).
  { assert (2 ^ k <= 2 ^ 63) by (apply Z.pow_le_mono_r; lia). lia. }
  pose proof (Prim2SF_valid (Py.of_int n)) as V.
  rewrite (of_int_spec n Hn63) in *.
  destruct n as [|p|p]; try lia.
  unfold binary_normalize, binary_round, shl_align in *.
  rewrite fexp_eq, Z.add_0_r, Z.sub_0_r in *.
  pose proof (digits_bounds p) as [Hlo Hup].
  set (d := Z.pos (digits2_pos p)) in *.
  assert (Hdk : d <= k).
  { change d with (Zdigits2 (Z.pos p)). apply digits_le; lia. }
  assert (B : forall mz ez, Z.pos mz = Z.pos p * 2 ^ (- ez) -> -52 <= ez <= 0 ->
            Py.mag_ge 1 (binary_round_aux prec emax false (Z.pos mz) ez loc_Exact)
            /\ Py.mag_le (k + 1) (binary_round_aux prec emax false (Z.pos mz) ez loc_Exact)
            \/ valid_binary (binary_round_aux prec emax false (Z.pos mz) ez loc_Exact) = false).
  { intros mz ez Hmz Hez.
    assert (Hd : Zdigits2 (Z.pos mz) + ez <= k).
    { assert (Zdigits2 (Z.pos mz) <= k - ez); [|lia].
      apply digits_le; [lia|]. split; [lia|]. rewrite Hmz.
      replace (k - ez) with (k + - ez) by lia. rewrite Z.pow_add_r by lia.
      assert (0 < 2 ^ (- ez)) by (apply Z.pow_pos_nonneg; lia). nia. }
    pose proof (round_aux_bounds false (Z.pos mz) ez loc_Exact k
                  ltac:(lia) Hd ltac:(lia) ltac:(lia)) as H.
    destruct (binary_round_aux prec emax false (Z.pos mz) ez loc_Exact)
      as [s|s| |s m e] eqn:E; try contradiction.
    - destruct H as [_ [H|H]]; lia.
    - destruct H as (-> & He & Hm).
      change (Zdigits2 (Z.pos m)) with (Z.pos (digits2_pos m)) in Hm.
      destruct (valid_binary (S754_finite false m e)) eqn:Vm; [left|right; reflexivity].
      apply valid_finite in Vm.
      cbv beta iota delta [Py.mag_le Py.mag_ge]. repeat split; lia. }
  destruct (Z.max (d - 53) (-1074)) as [|q|q] eqn:Eq.
  - destruct (B p 0) as [H|H]; [simpl; lia|lia|exact H|congruence].
  - destruct (B p 0) as [H|H]; [simpl; lia|lia|exact H|congruence].
  - destruct (B (Pos.iter xO p q) (Z.neg q)) as [H|H];
      [rewrite iter_xO; reflexivity|lia|exact H|congruence].
Qed.


Lemma Prim2SF_zero : Prim2SF 0 = S754_zero false.
Proof. reflexivity. Qed.

Lemma Prim2SF_one : Prim2SF 1 = S754_finite false 4503599627370496 (-52).
Proof. reflexivity. Qed.

(** A double between 0 and 1, ends included, is a zero or a finite positive
    number below 2. *)
Lemma unit_interval_mag (p : float) :
  (0 <=? p)%float = true -> (p <=? 1)%float = true ->
  Py.mag_le 1 (Prim2SF p).
Proof.
  rewrite !leb_spec, Prim2SF_zero, Prim2SF_one.
  pose proof (Prim2SF_valid p) as V.
  destruct (Prim2SF p) as [s|s| |s m e]; unfold SFleb, SFcompare;
    cbv beta iota delta [Py.mag_le]; try (intros; exact I);
    try (destruct s; discriminate); try discriminate.
  destruct s; [discriminate|]. intros _ H. split; [reflexivity|].
  apply valid_finite in V.
  destruct (e ?= -52) eqn:E; try discriminate.
  - apply Z.compare_eq in E. lia.
  - rewrite Z.compare_lt_iff in E. lia.
Qed.

(** A double above 0 and up to 1 is moreover not a zero. *)
Lemma proportion_positive (p : float) :
  (0 <? p)%float = true ->
  match Prim2SF p with
  | S754_finite s _ _ => s = false
  | S754_infinity s => s = false
  | _ => False
  end.
Proof.
  rewrite ltb_spec, Prim2SF_zero.
  destruct (Prim2SF p) as [s|s| |s m e]; unfold SFltb, SFcompare;
    try discriminate; destruct s; try discriminate; reflexivity.
Qed.

Lemma ltb_leb (p : float) : (0 <? p)%float = true -> (0 <=? p)%float = true.
Proof.
  rewrite ltb_spec, leb_spec. unfold SFltb, SFleb.
  destruct (SFcompare (Prim2SF 0) (Prim2SF p)) as [[]|]; congruence.
Qed.

(** [int] of a non-negative finite double is its floor. *)
Lemma to_int_floor (x : float) (K : Z) :
  Py.mag_le K (Prim2SF x) ->
  exists n, 0 <= n /\ Py.to_int x = Some n /\ Py.floor x = Some n.
Proof.
  unfold Py.to_int, Py.floor.
  destruct (Prim2SF x) as [s|s| |s m e]; cbv beta iota delta [Py.mag_le];
    try contradiction.
  - intros _. exists 0. repeat split; lia.
  - intros [-> _]. unfold Py.trunc_finite.
    eexists. repeat split.
    destruct e as [|k|k]; try lia.
    apply Z.div_pos; [lia|]. apply Z.pow_pos_nonneg; lia.
Qed.

Lemma mag_le_weaken (K K' : Z) (x : spec_float) :
  Py.mag_le K x -> K <= K' -> Py.mag_le K' x.
Proof.
  destruct x as [| | |s m e]; cbv beta iota delta [Py.mag_le]; try tauto.
  intros [-> ?] ?. split; [reflexivity|lia].
Qed.

End PyFacts.

(** ** C1: ScaleCalculator *)

(** The scale factor of images of realistic sizes is a finite, non-negative
    double. *)
Lemma scale_factor_mag (t : string) (W H Mw Mh : Z) (p : float) :
  0 < W < 2 ^ 31 -> 0 < H < 2 ^ 31 -> 0 < Mw < 2 ^ 31 -> 0 < Mh < 2 ^ 31 ->
  (0 <? p)%float = true -> (p <=? 1)%float = true ->
  Py.mag_le 67 (Prim2SF (scale_factor t W H Mw Mh p)).
Proof.
  intros HW HH HMw HMh Hp0 Hp1.
  pose proof (PyFacts.unit_interval_mag p (PyFacts.ltb_leb p Hp0) Hp1) as Mp.
  unfold scale_factor.
  destruct (String.eqb t "LINEAR"); [|destruct (String.eqb t "AREA")].
  - destruct (PyFacts.of_int_mag W 31 ltac:(lia) ltac:(lia)) as [_ MW].
    destruct (PyFacts.of_int_mag Mw 31 ltac:(lia) ltac:(lia)) as [MMw _].
    pose proof (PyFacts.mul_mag _ _ _ _ MW Mp ltac:(lia)) as M1.
    pose proof (PyFacts.div_mag _ _ _ _ M1 MMw ltac:(lia)) as M2.
    apply (PyFacts.mag_le_weaken _ _ _ M2). vm_compute; discriminate.
  - assert (HHW : 0 < H * W < 2 ^ 62).
    { change (2 ^ 62) with (2 ^ 31 * 2 ^ 31). nia. }
    assert (HMM : 0 < Mh * Mw < 2 ^ 62).
    { change (2 ^ 62) with (2 ^ 31 * 2 ^ 31). nia. }
    destruct (PyFacts.of_int_mag (H * W) 62 HHW ltac:(lia)) as [_ MW].
    destruct (PyFacts.of_int_mag (Mh * Mw) 62 HMM ltac:(lia)) as [MMw _].
    pose proof (PyFacts.mul_mag _ _ _ _ MW Mp ltac:(lia)) as M1.
    pose proof (PyFacts.div_mag _ _ _ _ M1 MMw ltac:(lia)) as M2.
    pose proof (PyFacts.sqrt_mag _ _ M2 ltac:(lia)) as M3.
    apply (PyFacts.mag_le_weaken _ _ _ M3). vm_compute; discriminate.
  - pose proof (PyFacts.unit_interval_mag 1 eq_refl eq_refl) as M1.
    apply (PyFacts.mag_le_weaken _ _ _ M1). vm_compute; discriminate.
Qed.

(** [new_size] never raises on images of realistic sizes, and its two
    integers are the floors of the scaled dimensions. *)
Lemma new_size_floor (t : string) (W H Mw Mh : Z) (p : float) :
  0 < W < 2 ^ 31 -> 0 < H < 2 ^ 31 -> 0 < Mw < 2 ^ 31 -> 0 < Mh < 2 ^ 31 ->
  (0 <? p)%float = true -> (p <=? 1)%float = true ->
  let s := scale_factor t W H Mw Mh p in
  exists w h,
    0 <= w /\ 0 <= h
    /\ Py.floor (Py.of_int Mw * s) = Some w
    /\ Py.floor (Py.of_int Mh * s) = Some h
    /\ new_size Mw Mh s = Some (w, h).
Proof.
  intros HW HH HMw HMh Hp0 Hp1 s.
  pose proof (scale_factor_mag t W H Mw Mh p HW HH HMw HMh Hp0 Hp1) as Ms.
  fold s in Ms.
  destruct (PyFacts.of_int_mag Mw 31 ltac:(lia) ltac:(lia)) as [_ MMw].
  destruct (PyFacts.of_int_mag Mh 31 ltac:(lia) ltac:(lia)) as [_ MMh].
  pose proof (PyFacts.mul_mag _ _ _ _ MMw Ms ltac:(lia)) as M1.
  pose proof (PyFacts.mul_mag _ _ _ _ MMh Ms ltac:(lia)) as M2.
  destruct (PyFacts.to_int_floor _ _ M1) as (w & Hw & Iw & Fw).
  destruct (PyFacts.to_int_floor _ _ M2) as (h & Hh & Ih & Fh).
  exists w, h. unfold new_size. rewrite Iw, Ih. auto.
Qed.

Section ScaleCalculator.

Variable resize : image -> Z * Z -> image.

(** The resampling filter returns an image of the size asked for. *)
Hypothesis resize_size : forall im sz, size (resize im sz) = sz.

(** C1: with canvas [W x H], mark [Mw x Mh] and a proportion in (0,1], the
    scale factor is [W*p/Mw] (LINEAR) or [sqrt(H*W*p/(Mh*Mw))] (AREA) in
    binary64 arithmetic; [new_size] is the pair of the floors of [Mw*s] and
    [Mh*s], and a mark that is resized gets exactly that size. *)
Theorem scale_calculator (W H Mw Mh : Z) (p : float) :
  0 < W < 2 ^ 31 -> 0 < H < 2 ^ 31 -> 0 < Mw < 2 ^ 31 -> 0 < Mh < 2 ^ 31 ->
  (0 <? p)%float = true -> (p <=? 1)%float = true ->
  scale_factor "LINEAR" W H Mw Mh p
    = (Py.of_int W * p / Py.of_int Mw)%float
  /\ scale_factor "AREA" W H Mw Mh p
     = PrimFloat.sqrt (Py.of_int (H * W) * p / Py.of_int (Mh * Mw))%float
  /\ forall t, t = "LINEAR"%string \/ t = "AREA"%string ->
       let s := scale_factor t W H Mw Mh p in
       exists w h,
         Py.floor (Py.of_int Mw * s) = Some w
         /\ Py.floor (Py.of_int Mh * s) = Some h
         /\ new_size Mw Mh s = Some (w, h)
         /\ forall watermark_img, 0 < w -> 0 < h ->
              size (resized resize watermark_img (w, h)) = (w, h).
Proof.
  intros HW HH HMw HMh Hp0 Hp1.
  split; [reflexivity|]. split; [reflexivity|].
  intros t _ s.
  destruct (new_size_floor t W H Mw Mh p HW HH HMw HMh Hp0 Hp1)
    as (w & h & _ & _ & Fw & Fh & Hn).
  exists w, h. repeat split; try assumption.
  intros im Hw Hh. unfold resized. simpl fst. simpl snd.
  assert (Ew : (w >? 0) = true) by (apply Z.gtb_lt; assumption).
  assert (Eh : (h >? 0) = true) by (apply Z.gtb_lt; assumption).
  rewrite Ew, Eh. apply resize_size.
Qed.

End ScaleCalculator.

Lemma nearest_size (im : image) (sz : Z * Z) : size (nearest im sz) = sz.
Proof. destruct sz. reflexivity. Qed.

(** C1 at canvas 1000 x 500, mark 200 x 100 and proportion 0.1. *)
Lemma scale_calculator_witness :
  scale_factor "LINEAR" 1000 500 200 100 tenth
    = (Py.of_int 1000 * tenth / Py.of_int 200)%float
  /\ scale_factor "AREA" 1000 500 200 100 tenth
     = PrimFloat.sqrt (Py.of_int (500 * 1000) * tenth
                       / Py.of_int (100 * 200))%float
  /\ forall t, t = "LINEAR"%string \/ t = "AREA"%string ->
       let s := scale_factor t 1000 500 200 100 tenth in
       exists w h,
         Py.floor (Py.of_int 200 * s) = Some w
         /\ Py.floor (Py.of_int 100 * s) = Some h
         /\ new_size 200 100 s = Some (w, h)
         /\ forall watermark_img, 0 < w -> 0 < h ->
              size (resized nearest watermark_img (w, h)) = (w, h).
Proof.
  apply (scale_calculator nearest nearest_size 1000 500 200 100 tenth);
    solve [split; reflexivity | reflexivity].
Defined.

(** ** Lists with indices *)

Lemma mapi_length {A B : Type} (f : Z -> A -> B) (l : list A) :
  forall i, List.length (mapi f i l) = List.length l.
Proof. induction l as [|a l IH]; intros i; simpl; [|rewrite IH]; reflexivity. Qed.

Lemma nth_mapi {A B : Type} (f : Z -> A -> B) (d : A) (d' : B) (l : list A) :
  forall i k, (k < List.length l)%nat ->
    nth k (mapi f i l) d' = f (i + Z.of_nat k) (nth k l d).
Proof.
  induction l as [|a l IH]; intros i k Hk; simpl in Hk; [lia|].
  destruct k as [|k]; simpl.
  - f_equal. lia.
  - rewrite IH by lia. f_equal. lia.
Qed.

Lemma In_mapi {A B : Type} (f : Z -> A -> B) (l : list A) (b : B) :
  forall i, In b (mapi f i l) -> exists j a, In a l /\ b = f j a.
Proof.
  induction l as [|a l IH]; intros i H; simpl in H; [contradiction|].
  destruct H as [H|H].
  - exists i, a. split; [left; reflexivity|congruence].
  - destruct (IH _ H) as (j & a' & Ha & Hb).
    exists j, a'. split; [right; assumption|assumption].
Qed.

(** ** C5: AlphaModulator *)

Lemma sample_mag (a : Z) :
  0 <= a <= 255 -> Py.mag_le 9 (Prim2SF (Py.of_int a)).
Proof.
  intros Ha. destruct (Z.eq_dec a 0) as [->|Hne].
  - rewrite PyFacts.of_int_spec by (split; [lia|reflexivity]). exact I.
  - apply (PyFacts.of_int_mag a 8); [|lia].
    change (2 ^ 8) with 256. lia.
Qed.

(** An 8-bit sample times an opacity between 0 and 1 has an integer part,
    which [int] and the floor agree on. *)
Lemma modulated_sample (o : float) (a : Z) :
  (0 <=? o)%float = true -> (o <=? 1)%float = true -> 0 <= a <= 255 ->
  exists v, 0 <= v
    /\ Py.to_int (Py.of_int a * o) = Some v
    /\ Py.floor (Py.of_int a * o) = Some v.
Proof.
  intros H0 H1 Ha.
  pose proof (PyFacts.mul_mag _ _ _ _ (sample_mag a Ha)
                (PyFacts.unit_interval_mag o H0 H1) ltac:(lia)) as M.
  exact (PyFacts.to_int_floor _ _ M).
Qed.

(** The lookup table of [point] is defined, entry by entry the floor of the
    index times the opacity. *)
Lemma lookup_table_spec (o : float) :
  (0 <=? o)%float = true -> (o <=? 1)%float = true ->
  forall n i, 0 <= i -> i + Z.of_nat n <= 256 ->
    exists lut, lookup_table o i n = Some lut
      /\ List.length lut = n
      /\ forall k, (k < n)%nat ->
           Py.floor (Py.of_int (i + Z.of_nat k) * o) = Some (nth k lut 0).
Proof.
  intros H0 H1. induction n as [|n IH]; intros i Hi Hn.
  - exists []. repeat split. intros k Hk. lia.
  - destruct (modulated_sample o i H0 H1 ltac:(lia)) as (v & _ & Iv & Fv).
    destruct (IH (i + 1) ltac:(lia) ltac:(lia)) as (lut & Hl & Hlen & Hnth).
    exists (v :: lut). simpl. rewrite Iv, Hl. repeat split.
    + simpl. congruence.
    + intros [|k] Hk.
      * simpl. rewrite Z.add_0_r. exact Fv.
      * simpl nth. rewrite <- Hnth by lia. do 3 f_equal. lia.
Qed.

(** Multiplying an 8-bit sample by 1.0 and taking the floor gives it
    back. *)
Lemma floor_times_one (a : Z) :
  0 <= a <= 255 -> Py.floor (Py.of_int a * 1) = Some a.
Proof.
  intros Ha.
  assert (H : forallb (fun n => match Py.floor (Py.of_int (Z.of_nat n) * 1) with
                                | Some v => v =? Z.of_nat n
                                | None => false
                                end) (seq 0 256) = true)
    by (vm_compute; reflexivity).
  rewrite forallb_forall in H.
  specialize (H (Z.to_nat a)). rewrite Z2Nat.id in H by lia.
  assert (Hin : In (Z.to_nat a) (seq 0 256)) by (apply in_seq; lia).
  specialize (H Hin).
  destruct (Py.floor (Py.of_int a * 1)) as [v|]; [|discriminate].
  apply Z.eqb_eq in H. congruence.
Qed.

(** Multiplying an 8-bit sample by 0.0 and taking the floor gives 0. *)
Lemma floor_times_zero (a : Z) :
  0 <= a <= 255 -> Py.floor (Py.of_int a * 0) = Some 0.
Proof.
  intros Ha. pose proof (sample_mag a Ha) as M.
  unfold Py.floor. rewrite mul_spec, PyFacts.Prim2SF_zero.
  destruct (Prim2SF (Py.of_int a)) as [s|s| |s m e];
    cbv beta iota delta [Py.mag_le] in M; try contradiction; reflexivity.
Qed.

(** An opacity that is at most 1 and not below 1 is 1.0 itself. *)
Lemma not_below_one (o : float) :
  (o <=? 1)%float = true -> (o <? 1)%float = false -> o = 1%float.
Proof.
  rewrite leb_spec, ltb_spec. unfold SFleb, SFltb. intros Hle Hlt.
  apply Prim2SF_inj. rewrite PyFacts.Prim2SF_one in *.
  destruct (Prim2SF o) as [s|s| |s m e];
    cbv beta iota delta [SFcompare] in Hle, Hlt;
    try discriminate; try (destruct s; discriminate).
  destruct s; [discriminate|].
  destruct (e ?= -52) eqn:E; try discriminate.
  apply Z.compare_eq in E. subst e.
  destruct (Pos.compare_cont Eq m 4503599627370496) eqn:C; try discriminate.
  apply (Pos.compare_eq m 4503599627370496) in C.
  subst m. reflexivity.
Qed.

(** C5: for an opacity [o] in [0,1] the AlphaModulator returns the mark with
    every alpha sample [a] replaced by [floor(a*o)] and the R, G, B channels
    as they were; with [o = 1.0] the result is the mark itself, and with
    [o = 0.0] every alpha sample of the result is 0. *)
Theorem alpha_modulator (o : float) (mark : image) :
  image_ok mark ->
  (0 <=? o)%float = true -> (o <=? 1)%float = true ->
  exists out,
    apply_opacity o mark = Some out
    /\ size out = size mark
    /\ List.length (im_data out) = List.length (im_data mark)
    /\ (forall k, (k < List.length (im_data mark))%nat ->
          let p := nth k (im_data mark) transparent in
          let q := nth k (im_data out) transparent in
          red q = red p /\ green q = green p /\ blue q = blue p
          /\ Py.floor (Py.of_int (alpha p) * o) = Some (alpha q))
    /\ (o = 1%float -> out = mark)
    /\ (o = 0%float -> forall q, In q (im_data out) -> alpha q = 0).
Proof.
  intros (_ & _ & _ & Hpx) H0 H1.
  rewrite Forall_forall in Hpx.
  assert (Hk : forall k, (k < List.length (im_data mark))%nat ->
                 0 <= alpha (nth k (im_data mark) transparent) <= 255).
  { intros k Hk. apply (Hpx (nth k (im_data mark) transparent)).
    apply nth_In. exact Hk. }
  unfold apply_opacity.
  destruct (o <? 1)%float eqn:Hlt.
  - destruct (lookup_table_spec o H0 H1 256 0 ltac:(lia) ltac:(lia))
      as (lut & -> & Hlen & Hnth).
    assert (Hq : forall k, (k < List.length (im_data mark))%nat ->
              nth k (im_data (point_alpha lut mark)) transparent
              = RGBA (red (nth k (im_data mark) transparent))
                     (green (nth k (im_data mark) transparent))
                     (blue (nth k (im_data mark) transparent))
                     (nth (Z.to_nat (alpha (nth k (im_data mark) transparent)))
                        lut 0)).
    { intros k Hlt'. unfold point_alpha, map_pixels. simpl im_data.
      rewrite (nth_mapi _ transparent) by exact Hlt'. reflexivity. }
    assert (Hf : forall k, (k < List.length (im_data mark))%nat ->
              Py.floor (Py.of_int (alpha (nth k (im_data mark) transparent)) * o)
              = Some (alpha (nth k (im_data (point_alpha lut mark)) transparent))).
    { intros k Hlt'. rewrite (Hq k Hlt'). simpl alpha.
      specialize (Hk k Hlt').
      rewrite <- Hnth by lia. rewrite Z2Nat.id by lia. reflexivity. }
    exists (point_alpha lut mark). split; [reflexivity|].
    split; [reflexivity|].
    split; [unfold point_alpha, map_pixels; simpl; apply mapi_length|].
    split; [|split].
    + intros k Hlt'. cbv zeta. rewrite (Hf k Hlt'), (Hq k Hlt').
      repeat split; reflexivity.
    + intros ->. discriminate Hlt.
    + intros -> q Hin.
      destruct (In_nth _ _ transparent Hin) as (k & Hlt' & <-).
      unfold point_alpha, map_pixels in Hlt'. simpl im_data in Hlt'.
      rewrite mapi_length in Hlt'.
      pose proof (Hf k Hlt') as E.
      rewrite floor_times_zero in E by (apply Hk; exact Hlt').
      congruence.
  - pose proof (not_below_one o H1 Hlt) as ->.
    exists mark. repeat split; try reflexivity.
    + apply floor_times_one. apply Hk. assumption.
    + intros E. discriminate E.
Qed.

Lemma solid_ok (w h : Z) (p : pixel) :
  0 <= w -> 0 <= h -> pixel_ok p -> image_ok (solid (w, h) p).
Proof.
  intros Hw Hh Hp. unfold image_ok, solid. simpl.
  repeat split; try assumption.
  - rewrite repeat_length. apply Z2Nat.id. nia.
  - apply Forall_forall. intros q Hq. apply repeat_spec in Hq. congruence.
Qed.

Lemma ink_ok : pixel_ok ink.
Proof. unfold pixel_ok, sample_ok, ink; simpl; lia. Qed.

Lemma grey_ok : pixel_ok grey.
Proof. unfold pixel_ok, sample_ok, grey; simpl; lia. Qed.

(** C5 at opacity 0.5 on a 2 x 2 mark. *)
Lemma alpha_modulator_witness :
  exists out,
    apply_opacity half (solid (2, 2) ink) = Some out
    /\ size out = (2, 2)
    /\ forall q, In q (im_data out) -> red q = 200 /\ alpha q = 100.
Proof.
  destruct (alpha_modulator half (solid (2, 2) ink)
              (solid_ok 2 2 ink ltac:(lia) ltac:(lia) ink_ok)
              eq_refl eq_refl) as (out & E & S & L & P & _).
  exists out. split; [exact E|]. split; [exact S|].
  intros q Hq. destruct (In_nth _ _ transparent Hq) as (k & Hk & <-).
  rewrite L in Hk. destruct (P k Hk) as (R & _ & _ & A).
  assert (Hp : nth k (im_data (solid (2, 2) ink)) transparent = ink).
  { simpl in Hk |- *. do 4 (destruct k as [|k]; [reflexivity|]). lia. }
  rewrite Hp in R, A. split; [exact R|].
  assert (F : Py.floor (Py.of_int (alpha ink) * half) = Some 100)
    by (vm_compute; reflexivity).
  congruence.
Defined.

(** ** C9: LayerCompositor *)

Lemma mapi_nth_eq {A B : Type} (f : Z -> A -> B) (d : A) (d' : B)
    (l : list A) (l' : list B) :
  List.length l = List.length l' ->
  (forall k, (k < List.length l)%nat ->
     f (Z.of_nat k) (nth k l d) = nth k l' d') ->
  mapi f 0 l = l'.
Proof.
  intros Hlen H. apply (nth_ext _ _ d' d').
  - rewrite mapi_length. exact Hlen.
  - intros k Hk. rewrite mapi_length in Hk.
    rewrite (nth_mapi f d d') by exact Hk. rewrite Z.add_0_l. apply H. exact Hk.
Qed.

(** The pixel of index [k] sits at column [k mod W] of row [k / W]. *)
Lemma index_coordinates (W H : Z) (k : nat) :
  0 <= W -> 0 <= H -> (k < Z.to_nat (W * H))%nat ->
  let i := Z.of_nat k in
  0 <= i mod W < W /\ 0 <= i / W < H
  /\ Z.to_nat (i / W * W + i mod W) = k.
Proof.
  intros HW HH Hk i.
  assert (Hi : 0 <= i < W * H) by (unfold i; lia).
  assert (HWpos : 0 < W) by nia.
  split; [apply Z.mod_pos_bound; lia|].
  split.
  - split; [apply Z.div_pos; lia|].
    apply Z.div_lt_upper_bound; lia.
  - pose proof (Z.div_mod i W ltac:(lia)) as E.
    replace (i / W * W + i mod W) with i by lia.
    unfold i. apply Nat2Z.id.
Qed.

Section LayerCompositor.

Variable div255 : Z -> Z.

(** Whatever its rounding, the division gives back a sample that was
    multiplied by 255. *)
Hypothesis div255_exact : forall c, 0 <= c <= 255 -> div255 (c * 255) = c.

Lemma blend_opaque (under over : Z) :
  0 <= over <= 255 -> blend div255 255 under over = over.
Proof.
  intros H. unfold blend.
  replace (over * 255 + under * (255 - 255)) with (over * 255) by lia.
  apply div255_exact. exact H.
Qed.

Lemma alpha_opaque (under : Z) :
  div255 (255 * 255 + under * (255 - 255)) = 255.
Proof.
  replace (255 * 255 + under * (255 - 255)) with (255 * 255) by lia.
  apply div255_exact. lia.
Qed.

(** C9: compositing a fully opaque mark of the size of the canvas, stamped
    at (0,0), gives the mark back pixel for pixel, the stamping and the final
    compositing both following the per-channel alpha rule. *)
Theorem opaque_mark_composite (canvas mark : image) :
  image_ok canvas -> image_ok mark -> size mark = size canvas ->
  (forall p, In p (im_data mark) -> alpha p = 255) ->
  alpha_composite div255 canvas
    (paste div255 (new_layer (size canvas)) mark (0, 0)) = mark.
Proof.
  destruct canvas as [W H cd], mark as [W' H' md].
  intros (HW & HH & Hlen & _) (_ & _ & Hlen' & Hok) Hsz Hopaque.
  simpl in HW, HH, Hlen, Hlen', Hok, Hopaque.
  unfold size in Hsz. simpl in Hsz. injection Hsz as -> ->.
  rewrite Forall_forall in Hok.
  unfold alpha_composite, paste, map_pixels, new_layer. simpl.
  f_equal.
  apply (mapi_nth_eq _ transparent transparent); [lia|].
  intros k Hk.
  assert (Hk' : (k < Z.to_nat (W * H))%nat) by lia.
  destruct (index_coordinates W H k HW HH Hk') as (Hx & Hy & Hi).
  cbv zeta in Hx, Hy, Hi.
  set (i := Z.of_nat k) in *.
  unfold getpixel at 1. simpl im_width. simpl im_data. rewrite Hi.
  rewrite (nth_mapi _ transparent transparent)
    by (rewrite repeat_length; exact Hk').
  rewrite Z.add_0_l. fold i.
  unfold inside. simpl im_width. simpl im_height. rewrite !Z.sub_0_r.
  assert (Ein : (0 <=? i mod W) && (i mod W <? W) && (0 <=? i / W)
                && (i / W <? H) = true).
  { rewrite !andb_true_iff, !Z.leb_le, !Z.ltb_lt. lia. }
  rewrite Ein. unfold getpixel. simpl im_width. simpl im_data. rewrite Hi.
  assert (Hin : In (nth k md transparent) md) by (apply nth_In; lia).
  pose proof (Hok _ Hin) as (Hr & Hg & Hb & Ha).
  pose proof (Hopaque _ Hin) as Ho.
  destruct (nth k md transparent) as [r g b a].
  cbn [red green blue alpha] in *. subst a.
  unfold composite_pixel. cbn [red green blue alpha].
  unfold sample_ok in Hr, Hg, Hb. cbv beta zeta.
  rewrite (blend_opaque _ 255) by lia.
  rewrite (blend_opaque _ r Hr), (blend_opaque _ g Hg), (blend_opaque _ b Hb).
  rewrite (blend_opaque _ r Hr), (blend_opaque _ g Hg), (blend_opaque _ b Hb).
  rewrite alpha_opaque. reflexivity.
Qed.

End LayerCompositor.

Lemma round255_exact (c : Z) : 0 <= c <= 255 -> round255 (c * 255) = c.
Proof.
  intros H. unfold round255. symmetry.
  apply (Z.div_unique _ _ _ 127); lia.
Qed.

(** C9 on a 2 x 2 canvas, with rounding to nearest. *)
Lemma opaque_mark_composite_witness :
  alpha_composite round255 (solid (2, 2) ink)
    (paste round255 (new_layer (2, 2)) (solid (2, 2) grey) (0, 0))
  = solid (2, 2) grey.
Proof.
  apply (opaque_mark_composite round255 round255_exact
           (solid (2, 2) ink) (solid (2, 2) grey)).
  - apply solid_ok; [lia|lia|exact ink_ok].
  - apply solid_ok; [lia|lia|exact grey_ok].
  - reflexivity.
  - intros p Hp. apply repeat_spec in Hp. subst p. reflexivity.
Defined.

(** ** The tiling loops *)

Lemma zrange_cons (c : Z) (n : nat) : zrange c (S n) = c :: zrange (c + 1) n.
Proof.
  unfold zrange. simpl. rewrite Z.add_0_r. f_equal.
  rewrite <- seq_shift, map_map. apply map_ext. intros k. lia.
Qed.

Lemma In_zrange (c : Z) (n : nat) (z : Z) :
  In z (zrange c n) <-> c <= z < c + Z.of_nat n.
Proof.
  unfold zrange. rewrite in_map_iff. split.
  - intros (k & <- & Hk). apply in_seq in Hk. lia.
  - intros Hz. exists (Z.to_nat (z - c)). split; [lia|]. apply in_seq. lia.
Qed.

(** With a positive step, [c * step] is below the extent exactly for the
    first [ceil_div extent step] indices. *)
Lemma below_extent (extent step c : Z) :
  0 < step -> (c * step < extent <-> c < ceil_div extent step).
Proof.
  intros Hs. unfold ceil_div. split; intros H.
  - apply Z.div_le_lower_bound with (a := extent + step - 1) (b := step) (q := c + 1) in Hs as H'; lia.
  - destruct (Z_lt_le_dec (c * step) extent) as [|Hge]; [assumption|exfalso].
    assert ((extent + step - 1) / step <= c); [|lia].
    apply Z.lt_succ_r. apply Z.div_lt_upper_bound; lia.
Qed.

Section Loops.

Context {A : Type}.
Variable cell : Z -> Z -> Z -> Z -> A -> A.
Variables width height x_step y_step : Z.
Hypothesis x_step_pos : 0 < x_step.
Hypothesis y_step_pos : 0 < y_step.

(** What one row of cells does to the state. *)
Definition row_effect (row_index : Z) (st : A) : A :=
  fold_left
    (fun st c => cell row_index c (c * x_step) (row_index * y_step) st)
    (zrange 0 (Z.to_nat (ceil_div width x_step))) st.

(** The inner loop ends, having gone through the remaining columns. *)
Lemma columns_closed (row_index y : Z) :
  forall n c st fuel,
    0 <= c -> Z.of_nat n = Z.max 0 (ceil_div width x_step - c) ->
    (n < fuel)%nat ->
    columns cell width x_step fuel row_index y c (c * x_step) st
    = Some (fold_left (fun st c' => cell row_index c' (c' * x_step) y st)
              (zrange c n) st).
Proof.
  induction n as [|n IH]; intros c st fuel Hc Hn Hf;
    (destruct fuel as [|fuel]; [lia|]); simpl columns.
  - assert (E : (c * x_step <? width) = false).
    { apply Z.ltb_ge. apply Z.nlt_ge. rewrite below_extent by assumption. lia. }
    rewrite E. reflexivity.
  - assert (E : (c * x_step <? width) = true).
    { apply Z.ltb_lt. rewrite below_extent by assumption. lia. }
    rewrite E. rewrite zrange_cons. simpl fold_left.
    replace (c * x_step + x_step) with ((c + 1) * x_step) by lia.
    apply IH; lia.
Qed.

(** The outer loop ends, having gone through the remaining rows. *)
Lemma rows_closed :
  forall n r st fuel,
    0 <= r -> Z.of_nat n = Z.max 0 (ceil_div height y_step - r) ->
    (n + Z.to_nat (ceil_div width x_step) < fuel)%nat ->
    rows cell width height x_step y_step fuel r (r * y_step) st
    = Some (fold_left (fun st r' => row_effect r' st) (zrange r n) st).
Proof.
  induction n as [|n IH]; intros r st fuel Hr Hn Hf;
    (destruct fuel as [|fuel]; [lia|]); simpl rows.
  - assert (E : (r * y_step <? height) = false).
    { apply Z.ltb_ge. apply Z.nlt_ge. rewrite below_extent by assumption. lia. }
    rewrite E. reflexivity.
  - assert (E : (r * y_step <? height) = true).
    { apply Z.ltb_lt. rewrite below_extent by assumption. lia. }
    rewrite E.
    change 0 with (0 * x_step) at 2.
    rewrite (columns_closed r (r * y_step)
               (Z.to_nat (ceil_div width x_step)) 0 st fuel) by lia.
    rewrite zrange_cons. simpl fold_left.
    replace (r * y_step + y_step) with ((r + 1) * y_step) by lia.
    apply IH; lia.
Qed.

End Loops.

(** Two loop bodies that keep a relation between their states keep it
    through the loops, which end or run out of fuel together. *)
Section Simulation.

Context {A B : Type}.
Variable cellA : Z -> Z -> Z -> Z -> A -> A.
Variable cellB : Z -> Z -> Z -> Z -> B -> B.
Variable R : A -> B -> Prop.
Variables width height x_step y_step : Z.

Hypothesis cells_related :
  forall r c x y a b, R a b -> R (cellA r c x y a) (cellB r c x y b).

Definition related (oa : option A) (ob : option B) : Prop :=
  match oa, ob with
  | Some a, Some b => R a b
  | None, None => True
  | _, _ => False
  end.

Lemma columns_related (row_index y : Z) :
  forall fuel c x a b, R a b ->
    related (columns cellA width x_step fuel row_index y c x a)
            (columns cellB width x_step fuel row_index y c x b).
Proof.
  induction fuel as [|fuel IH]; intros c x a b Hab; simpl; [exact I|].
  destruct (x <? width); [|exact Hab].
  apply IH. apply cells_related. exact Hab.
Qed.

Lemma rows_related :
  forall fuel r y a b, R a b ->
    related (rows cellA width height x_step y_step fuel r y a)
            (rows cellB width height x_step y_step fuel r y b).
Proof.
  induction fuel as [|fuel IH]; intros r y a b Hab; simpl; [exact I|].
  destruct (y <? height); [|exact Hab].
  pose proof (columns_related r y fuel 0 0 a b Hab) as H.
  destruct (columns cellA width x_step fuel r y 0 0 a) as [a'|],
           (columns cellB width x_step fuel r y 0 0 b) as [b'|];
    simpl in H; try contradiction; [|exact I].
  apply IH. exact H.
Qed.

End Simulation.

(** A step of zero never leaves the inner loop. *)
Lemma columns_zero_step {A : Type} (cell : Z -> Z -> Z -> Z -> A -> A)
    (width row_index y x : Z) :
  x < width ->
  forall fuel c st, columns cell width 0 fuel row_index y c x st = None.
Proof.
  intros Hx. apply Z.ltb_lt in Hx.
  induction fuel as [|fuel IH]; intros c st; simpl; [reflexivity|].
  rewrite Hx, Z.add_0_r. apply IH.
Qed.

Lemma rows_zero_step {A : Type} (cell : Z -> Z -> Z -> Z -> A -> A)
    (width height y_step : Z) (st : A) :
  0 < width -> 0 < height ->
  forall fuel, rows cell width height 0 y_step fuel 0 0 st = None.
Proof.
  intros Hw Hh [|fuel]; simpl; [reflexivity|].
  apply Z.ltb_lt in Hh. rewrite Hh.
  rewrite columns_zero_step by exact Hw. reflexivity.
Qed.

(** ** C4: the checkerboard *)

(** The offsets stamped in one row, and in all rows. *)
Definition row_offsets (width x_step y_step row_index : Z) : list (Z * Z) :=
  flat_map
    (fun c => if (row_index + c) mod 2 =? 0
              then [(c * x_step, row_index * y_step)] else [])
    (zrange 0 (Z.to_nat (ceil_div width x_step))).

Definition grid_offsets (width height x_step y_step : Z) : list (Z * Z) :=
  flat_map (row_offsets width x_step y_step)
    (zrange 0 (Z.to_nat (ceil_div height y_step))).

Lemma fold_note (r x_step y_step : Z) (cols : list Z) :
  forall acc,
    fold_left (fun st c => note_if_even r c (c * x_step) (r * y_step) st)
      cols acc
    = acc ++ flat_map
               (fun c => if (r + c) mod 2 =? 0
                         then [(c * x_step, r * y_step)] else [])
               cols.
Proof.
  induction cols as [|c cols IH]; intros acc; simpl.
  - rewrite app_nil_r. reflexivity.
  - rewrite IH. unfold note_if_even.
    destruct ((r + c) mod 2 =? 0); simpl;
      [rewrite <- app_assoc|]; reflexivity.
Qed.

Lemma fold_rows_note (width x_step y_step : Z) (rs : list Z) :
  forall acc,
    fold_left (fun st r => row_effect note_if_even width x_step y_step r st)
      rs acc
    = acc ++ flat_map (row_offsets width x_step y_step) rs.
Proof.
  induction rs as [|r rs IH]; intros acc; simpl.
  - rewrite app_nil_r. reflexivity.
  - rewrite IH. unfold row_effect. rewrite fold_note.
    rewrite <- app_assoc. reflexivity.
Qed.

(** With positive steps the loops end and stamp at the offsets of the
    grid. *)
Lemma stamp_offsets_grid (fuel : nat) (width height x_step y_step : Z) :
  0 < x_step -> 0 < y_step ->
  (Z.to_nat (ceil_div height y_step) + Z.to_nat (ceil_div width x_step)
   < fuel)%nat ->
  stamp_offsets fuel width height x_step y_step
  = Some (grid_offsets width height x_step y_step).
Proof.
  intros Hx Hy Hf. unfold stamp_offsets.
  change 0 with (0 * y_step) at 2.
  rewrite (rows_closed note_if_even width height x_step y_step Hx Hy
             (Z.to_nat (ceil_div height y_step)) 0 [] fuel) by lia.
  rewrite fold_rows_note. reflexivity.
Qed.

(** The offsets of the grid: the cells inside the canvas whose row and
    column indices have an even sum. *)
Lemma In_grid_offsets (width height x_step y_step x y : Z) :
  0 < x_step -> 0 < y_step ->
  In (x, y) (grid_offsets width height x_step y_step)
  <-> exists r c, 0 <= r /\ 0 <= c /\ x = c * x_step /\ y = r * y_step
        /\ x < width /\ y < height /\ (r + c) mod 2 = 0.
Proof.
  intros Hx Hy. unfold grid_offsets, row_offsets.
  rewrite in_flat_map. split.
  - intros (r & Hr & H). rewrite in_flat_map in H.
    destruct H as (c & Hc & H).
    apply In_zrange in Hr, Hc.
    destruct ((r + c) mod 2 =? 0) eqn:E; [|contradiction].
    destruct H as [H|[]]. injection H as <- <-.
    apply Z.eqb_eq in E.
    exists r, c. repeat split; try lia.
    + apply below_extent; lia.
    + apply below_extent; lia.
  - intros (r & c & Hr & Hc & -> & -> & Hxw & Hyh & E).
    apply below_extent in Hxw, Hyh; try assumption.
    exists r. split; [apply In_zrange; lia|].
    rewrite in_flat_map. exists c. split; [apply In_zrange; lia|].
    apply Z.eqb_eq in E. rewrite E. left. reflexivity.
Qed.

Lemma zrange_length (c : Z) (n : nat) : List.length (zrange c n) = n.
Proof. unfold zrange. rewrite length_map, length_seq. reflexivity. Qed.

Lemma fold_count {X : Type} (l : list X) :
  forall n, fold_left (fun n _ => S n) l n = (n + List.length l)%nat.
Proof.
  induction l as [|x l IH]; intros n; simpl; [lia|]. rewrite IH. lia.
Qed.

Lemma fold_left_same {X S : Type} (f g : S -> X -> S) (l : list X) :
  (forall s x, f s x = g s x) ->
  forall s, fold_left f l s = fold_left g l s.
Proof.
  intros H. induction l as [|x l IH]; intros s; simpl; [reflexivity|].
  rewrite H. apply IH.
Qed.

Lemma fold_add {X : Type} (k : nat) (l : list X) :
  forall n, fold_left (fun n _ => (n + k)%nat) l n
            = (n + List.length l * k)%nat.
Proof.
  induction l as [|x l IH]; intros n; simpl; [lia|]. rewrite IH. lia.
Qed.

(** The number of cells gone through: rows times columns. *)
Lemma cells_visited_grid (fuel : nat) (width height x_step y_step : Z) :
  0 < x_step -> 0 < y_step ->
  (Z.to_nat (ceil_div height y_step) + Z.to_nat (ceil_div width x_step)
   < fuel)%nat ->
  cells_visited fuel width height x_step y_step
  = Some (Z.to_nat (ceil_div height y_step)
          * Z.to_nat (ceil_div width x_step))%nat.
Proof.
  intros Hx Hy Hf. unfold cells_visited.
  change 0 with (0 * y_step) at 2.
  rewrite (rows_closed (fun _ _ _ _ n => S n) width height x_step y_step
             Hx Hy (Z.to_nat (ceil_div height y_step)) 0 O fuel) by lia.
  f_equal.
  rewrite (fold_left_same _
             (fun n _ => (n + Z.to_nat (ceil_div width x_step))%nat)).
  - rewrite fold_add, zrange_length. reflexivity.
  - intros n r. unfold row_effect. rewrite fold_count, zrange_length.
    reflexivity.
Qed.

Section Tiling.

Variable div255 : Z -> Z.

(** The layer after stamping the mark at a list of offsets, in order. *)
Definition stamped (watermark_img : image) (offsets : list (Z * Z))
    (layer : image) : image :=
  fold_left (fun l o => paste div255 l watermark_img o) offsets layer.

(** The TILE branch stamps the mark at the offsets the loops record. *)
Lemma tile_stamps (fuel : nat) (a : arguments) (p : prepared)
    (layer : image) :
  related (fun l offsets => l = stamped (watermark_img p) offsets layer)
    (tile div255 fuel a p layer)
    (stamp_offsets fuel (im_width (original p)) (im_height (original p))
       (fst (size_wanted p) + tile_padding a)
       (snd (size_wanted p) + tile_padding a)).
Proof.
  unfold tile, stamp_offsets, size. apply rows_related; [|reflexivity].
  intros r c x y l offsets ->. unfold stamp_if_even, note_if_even, stamped.
  destruct ((r + c) mod 2 =? 0); [|reflexivity].
  rewrite fold_left_app. reflexivity.
Qed.

Lemma tile_grid (fuel : nat) (a : arguments) (p : prepared) (layer : image) :
  let width := im_width (original p) in
  let height := im_height (original p) in
  let x_step := fst (size_wanted p) + tile_padding a in
  let y_step := snd (size_wanted p) + tile_padding a in
  0 < x_step -> 0 < y_step ->
  (Z.to_nat (ceil_div height y_step) + Z.to_nat (ceil_div width x_step)
   < fuel)%nat ->
  tile div255 fuel a p layer
  = Some (stamped (watermark_img p)
            (grid_offsets width height x_step y_step) layer).
Proof.
  intros width height x_step y_step Hx Hy Hf.
  pose proof (tile_stamps fuel a p layer) as H.
  fold width height x_step y_step in H.
  rewrite (stamp_offsets_grid fuel width height x_step y_step Hx Hy Hf) in H.
  destruct (tile div255 fuel a p layer) as [l|]; simpl in H;
    [congruence|contradiction].
Qed.

(** A pixel read back from [map_pixels]. *)
Lemma getpixel_map_pixels (f : Z -> Z -> pixel -> pixel) (im : image)
    (x y : Z) :
  Z.of_nat (List.length (im_data im)) = im_width im * im_height im ->
  0 <= x < im_width im -> 0 <= y < im_height im ->
  getpixel (map_pixels f im) x y = f x y (getpixel im x y).
Proof.
  intros Hlen Hx Hy. unfold getpixel, map_pixels. simpl.
  set (W := im_width im) in *.
  assert (Hk : (Z.to_nat (y * W + x) < List.length (im_data im))%nat) by nia.
  rewrite (nth_mapi _ transparent transparent) by exact Hk.
  rewrite Z.add_0_l, Z2Nat.id by nia.
  f_equal.
  - rewrite Z.add_comm, Z.mod_add by lia. apply Z.mod_small. lia.
  - rewrite Z.add_comm, Z.div_add by lia. rewrite Z.div_small by lia. lia.
Qed.

(** Stamping leaves the pixels outside the stamp as they were. *)
Lemma stamped_outside (im : image) (x y : Z) :
  forall offsets layer,
    Z.of_nat (List.length (im_data layer)) = im_width layer * im_height layer ->
    0 <= x < im_width layer -> 0 <= y < im_height layer ->
    (forall o, In o offsets -> inside im (x - fst o) (y - snd o) = false) ->
    getpixel (stamped im offsets layer) x y = getpixel layer x y.
Proof.
  induction offsets as [|o offsets IH]; intros layer Hlen Hx Hy Hout;
    [reflexivity|].
  unfold stamped in *. simpl fold_left. rewrite IH.
  - unfold paste. rewrite getpixel_map_pixels by assumption.
    rewrite (Hout o (or_introl eq_refl)). reflexivity.
  - unfold paste, map_pixels. simpl. rewrite mapi_length. exact Hlen.
  - exact Hx.
  - exact Hy.
  - intros o' Ho'. apply Hout. right. exact Ho'.
Qed.

(** With a mark no larger than the steps, the pixels of the cells of odd
    parity are never written. *)
Lemma odd_cells_untouched (im layer : image) (width height x_step y_step : Z)
    (x y : Z) :
  0 < x_step -> 0 < y_step ->
  im_width im <= x_step -> im_height im <= y_step ->
  Z.of_nat (List.length (im_data layer)) = im_width layer * im_height layer ->
  0 <= x < im_width layer -> 0 <= y < im_height layer ->
  (y / y_step + x / x_step) mod 2 = 1 ->
  getpixel (stamped im (grid_offsets width height x_step y_step) layer) x y
  = getpixel layer x y.
Proof.
  intros Hxs Hys Hw Hh Hlen Hx Hy Hodd.
  apply stamped_outside; try assumption.
  intros [ox oy] Ho. apply In_grid_offsets in Ho; try assumption.
  destruct Ho as (r & c & Hr & Hc & -> & -> & _ & _ & Heven).
  simpl fst. simpl snd. unfold inside.
  destruct ((0 <=? x - c * x_step) && (x - c * x_step <? im_width im)
            && (0 <=? y - r * y_step) && (y - r * y_step <? im_height im))
    eqn:E; [exfalso|reflexivity].
  rewrite !andb_true_iff, !Z.leb_le, !Z.ltb_lt in E.
  assert (Ec : x / x_step = c)
    by (symmetry; apply (Z.div_unique x x_step c (x - c * x_step)); lia).
  assert (Er : y / y_step = r)
    by (symmetry; apply (Z.div_unique y y_step r (y - r * y_step)); lia).
  rewrite Ec, Er in Hodd. lia.
Qed.

End Tiling.

Lemma getpixel_new_layer (sz : Z * Z) (x y : Z) :
  getpixel (new_layer sz) x y = transparent.
Proof.
  unfold getpixel, new_layer. simpl.
  generalize (Z.to_nat (y * fst sz + x)). generalize (Z.to_nat (fst sz * snd sz)).
  induction n as [|n IH]; intros [|k]; simpl; auto.
Qed.

Lemma new_layer_length (sz : Z * Z) :
  0 <= fst sz -> 0 <= snd sz ->
  Z.of_nat (List.length (im_data (new_layer sz)))
  = im_width (new_layer sz) * im_height (new_layer sz).
Proof.
  intros Hw Hh. unfold new_layer. simpl. rewrite repeat_length.
  apply Z2Nat.id. nia.
Qed.

(** X17: in TILE mode with positive steps the loops end and stamp the mark
    at exactly the offsets [(c*x_step, r*y_step)] that lie inside the canvas
    and have [r + c] even; when the mark has the size the steps were
    computed from, which is the case after a resize and not after a skipped
    one, the pixels of the cells with [r + c] odd stay transparent.  With a
    400 x 400 canvas, a 50 x 50 mark and a padding of 10 the steps are 60
    and cells (0,0) and (1,1) are stamped, (0,1) and (1,0) are not. *)
Theorem checkerboard :
  (forall (div255 : Z -> Z) (fuel : nat) (a : arguments) (p : prepared),
     let width := im_width (original p) in
     let height := im_height (original p) in
     let x_step := fst (size_wanted p) + tile_padding a in
     let y_step := snd (size_wanted p) + tile_padding a in
     let layer := new_layer (size (original p)) in
     0 < x_step -> 0 < y_step ->
     (Z.to_nat (ceil_div height y_step) + Z.to_nat (ceil_div width x_step)
      < fuel)%nat ->
     exists offsets,
       stamp_offsets fuel width height x_step y_step = Some offsets
       /\ tile div255 fuel a p layer
          = Some (stamped div255 (watermark_img p) offsets layer)
       /\ (forall x y,
             In (x, y) offsets
             <-> exists r c, 0 <= r /\ 0 <= c
                   /\ x = c * x_step /\ y = r * y_step
                   /\ x < width /\ y < height /\ (r + c) mod 2 = 0)
       /\ (size (watermark_img p) = size_wanted p -> 0 <= tile_padding a ->
           forall x y, 0 <= x < width -> 0 <= y < height ->
             (y / y_step + x / x_step) mod 2 = 1 ->
             getpixel (stamped div255 (watermark_img p) offsets layer) x y
             = transparent))
  /\ (exists offsets,
        stamp_offsets 15 400 400 (50 + 10) (50 + 10) = Some offsets
        /\ In (0 * 60, 0 * 60) offsets /\ ~ In (1 * 60, 0 * 60) offsets
        /\ ~ In (0 * 60, 1 * 60) offsets /\ In (1 * 60, 1 * 60) offsets).
Proof.
  split.
  - intros div255 fuel a p width height x_step y_step layer Hx Hy Hf.
    exists (grid_offsets width height x_step y_step).
    split; [apply stamp_offsets_grid; assumption|].
    split; [apply (tile_grid div255 fuel a p layer); assumption|].
    split; [intros x y; apply In_grid_offsets; assumption|].
    intros Hsz Hpad x y Hxw Hyh Hodd.
    unfold size in Hsz.
    assert (Hw : im_width (watermark_img p) <= x_step)
      by (unfold x_step; rewrite <- Hsz; simpl; lia).
    assert (Hh : im_height (watermark_img p) <= y_step)
      by (unfold y_step; rewrite <- Hsz; simpl; lia).
    rewrite (odd_cells_untouched div255 (watermark_img p) layer width height
               x_step y_step x y Hx Hy Hw Hh).
    + apply getpixel_new_layer.
    + apply new_layer_length; simpl; unfold width, height in *; lia.
    + exact Hxw.
    + exact Hyh.
    + exact Hodd.
  - exists (grid_offsets 400 400 60 60).
    split; [apply stamp_offsets_grid; [lia|lia|vm_compute; lia]|].
    rewrite !In_grid_offsets by lia.
    split; [exists 0, 0; repeat split; lia|].
    split; [intros (r & c & Hr & Hc & Ex & Ey & _ & _ & E);
            assert (r = 0) by lia; assert (c = 1) by lia; subst;
            discriminate E|].
    split; [intros (r & c & Hr & Hc & Ex & Ey & _ & _ & E);
            assert (r = 1) by lia; assert (c = 0) by lia; subst;
            discriminate E|].
    exists 1, 1. repeat split; lia.
Qed.

(** X17 on a 4 x 4 canvas with a 1 x 1 mark and a padding of 1: pixel
    (2, 0), in cell (0, 1), stays transparent. *)
Lemma checkerboard_witness :
  exists offsets,
    stamp_offsets 10 4 4 2 2 = Some offsets
    /\ (forall x y,
          In (x, y) offsets
          <-> exists r c, 0 <= r /\ 0 <= c /\ x = c * 2 /\ y = r * 2
                /\ x < 4 /\ y < 4 /\ (r + c) mod 2 = 0)
    /\ getpixel
         (stamped round255 (solid (1, 1) ink) offsets (new_layer (4, 4)))
         2 0
       = transparent.
Proof.
  destruct (proj1 checkerboard round255 10%nat
              (Arguments "small.png" "dot.png" "out.png" 0
                 (PosStr "LOWER_RIGHT") 1 half "LINEAR" "TILE" 1)
              (Prepared canvas4 (solid (1, 1) ink) (1, 1)))
    as (offsets & Ho & _ & Hin & Hodd).
  - simpl. lia.
  - simpl. lia.
  - vm_compute. lia.
  - exists offsets. split; [exact Ho|]. split; [exact Hin|].
    apply (Hodd eq_refl); simpl; try lia. reflexivity.
Defined.

(** ** C3, C4 and C6: the steps of the tiling after a skipped resize *)

(** In the TILE branch the layer is the one of the loops. *)
Lemma place_step_tile (div255 : Z -> Z) (can_paste : image -> Z * Z -> bool)
    (fuel : nat) (a : arguments) (p : prepared) :
  mode a = "TILE"%string ->
  place_step div255 can_paste fuel a p = place div255 fuel a p.
Proof.
  intros H. unfold place_step, single_offset. rewrite H. reflexivity.
Qed.

(** In the SINGLE branch the layer is built when [paste] takes the offset
    of the Positioner. *)
Lemma place_step_single (div255 : Z -> Z)
    (can_paste : image -> Z * Z -> bool) (fuel : nat) (a : arguments)
    (p : prepared) (pos : Z * Z) :
  single_offset a p = Some pos ->
  place_step div255 can_paste fuel a p
  = if can_paste (watermark_img p) pos then place div255 fuel a p
    else Exn OtherException.
Proof.
  intros H. unfold place_step. rewrite H. reflexivity.
Qed.

(** The offset tested is the one at which the SINGLE branch pastes. *)
Lemma single_at_offset (div255 : Z -> Z) (a : arguments) (p : prepared)
    (watermark_layer : image) :
  String.eqb (mode a) "TILE" = false ->
  single div255 a p watermark_layer
  = match single_offset a p with
    | Some pos => Ok (paste div255 watermark_layer (watermark_img p) pos)
    | None => Exn OtherException
    end.
Proof.
  intros H. unfold single, single_offset. rewrite H.
  destruct (size (original p)) as [width height].
  destruct (size (watermark_img p)) as [wm_width wm_height].
  destruct (positioner width height wm_width wm_height
              (if margin a >=? 0 then margin a else 0) (position a));
    reflexivity.
Qed.

(** X7: with positive steps the tiling ends after [ceil(H/stepY)] rows of
    [ceil(W/stepX)] cells. *)
Lemma tiling_terminates (div255 : Z -> Z) (a : arguments) (p : prepared)
    (layer : image) :
  let width := im_width (original p) in
  let height := im_height (original p) in
  let x_step := fst (size_wanted p) + tile_padding a in
  let y_step := snd (size_wanted p) + tile_padding a in
  0 < x_step -> 0 < y_step ->
  exists fuel layer',
    tile div255 fuel a p layer = Some layer'
    /\ cells_visited fuel width height x_step y_step
       = Some (Z.to_nat (ceil_div height y_step)
               * Z.to_nat (ceil_div width x_step))%nat.
Proof.
  intros width height x_step y_step Hx Hy.
  set (fuel := S (Z.to_nat (ceil_div height y_step)
                  + Z.to_nat (ceil_div width x_step))).
  exists fuel. eexists. split.
  - apply (tile_grid div255 fuel a p layer); try assumption.
    unfold fuel. fold width height x_step y_step. lia.
  - apply cells_visited_grid; try assumption. unfold fuel. lia.
Qed.

Lemma tile_args_valid (padding : Z) :
  0 <= padding -> validation_error (tile_args padding) = None.
Proof.
  intros H. unfold validation_error, tile_args.
  cbn [proportion input_path watermark_path output_dir margin position
       type_of_rescaling mode opacity tile_padding].
  assert (E : (padding <? 0) = false) by (apply Z.ltb_ge; exact H).
  rewrite E. reflexivity.
Qed.

Lemma tile_args_prepare (padding : Z) :
  prepare nearest fits_c_int sample_disk (tile_args padding)
  = Ok (Prepared canvas30 mark40 (0, 0)).
Proof. vm_compute. reflexivity. Qed.

(** C3 at a 30 x 30 canvas, a 40 x 40 mark, proportion 0.01 and a padding of
    0: the resize is skipped, both steps are 0, and the call never returns,
    whatever the fuel. *)
Theorem zero_step_never_ends :
  new_size 40 40 (scale_factor "LINEAR" 30 30 40 40 hundredth) = Some (0, 0)
  /\ forall fuel,
       add_watermark round255 nearest fits_c_int sample_disk always
           box_fits_c_int fuel (tile_args 0)
       = Hangs.
Proof.
  split; [vm_compute; reflexivity|].
  intros fuel. unfold add_watermark.
  rewrite tile_args_valid by lia.
  unfold try_block. rewrite tile_args_prepare.
  cbn [bind]. rewrite place_step_tile by reflexivity. unfold place.
  cbn [mode tile_args]. change (String.eqb "TILE" "TILE") with true.
  cbv iota. unfold tile.
  cbn [original size_wanted tile_padding tile_args fst snd size].
  change (im_width canvas30) with 30. change (im_height canvas30) with 30.
  change (0 + 0) with 0.
  rewrite rows_zero_step by lia. reflexivity.
Qed.

(** C6 at a 30 x 30 canvas, a 40 x 40 mark, proportion 0.01 and a padding of
    10: the resize is skipped and the mark keeps its 40 x 40 pixels, yet the
    steps are taken from [new_size = (0, 0)]: the mark is stamped every 10
    pixels, five times, where steps of 40 + 10 stamp it once. *)
Theorem skipped_resize_steps :
  prepare nearest fits_c_int sample_disk (tile_args 10)
  = Ok (Prepared canvas30 mark40 (0, 0))
  /\ size mark40 = (40, 40)
  /\ (forall n,
        add_watermark round255 nearest fits_c_int sample_disk always
            box_fits_c_int (7 + n)
          (tile_args 10)
        = Saves "out.png"
            (PngFile
               (alpha_composite round255 canvas30
                  (stamped round255 mark40
                     [(0, 0); (20, 0); (10, 10); (0, 20); (20, 20)]
                     (new_layer (30, 30))))))
  /\ grid_offsets 30 30 (40 + 10) (40 + 10) = [(0, 0)].
Proof.
  split; [apply tile_args_prepare|].
  split; [reflexivity|].
  split; [|vm_compute; reflexivity].
  intros n. generalize (7 + n)%nat (Nat.le_add_r 7 n). intros fuel Hf.
  unfold add_watermark.
  rewrite tile_args_valid by lia.
  unfold try_block. rewrite tile_args_prepare.
  cbn [bind]. rewrite place_step_tile by reflexivity. unfold place.
  cbn [mode tile_args]. change (String.eqb "TILE" "TILE") with true.
  cbv iota.
  rewrite (tile_grid round255 fuel (tile_args 10)
             (Prepared canvas30 mark40 (0, 0))).
  - cbn [original watermark_img size_wanted tile_padding tile_args fst snd].
    change (grid_offsets (im_width canvas30) (im_height canvas30) (0 + 10)
              (0 + 10))
      with [(0, 0); (20, 0); (10, 10); (0, 20); (20, 20)].
    reflexivity.
  - vm_compute. reflexivity.
  - vm_compute. reflexivity.
  - cbn [original size_wanted tile_padding tile_args fst snd].
    change (Z.to_nat (ceil_div (im_height canvas30) (0 + 10))) with 3%nat.
    change (Z.to_nat (ceil_div (im_width canvas30) (0 + 10))) with 3%nat.
    lia.
Qed.

(** C4 at the same call, a 30 x 30 canvas, a 40 x 40 mark, proportion 0.01
    and a padding of 10: both steps are positive, 10 pixels, and pixel
    (10, 0) lies in cell (0, 1), where [r + c] is odd; it is not left
    transparent: the stamp of cell (0, 0) is the 40 x 40 mark, four cells
    wide, and paints it.  With the steps of 40 + 10 that the size of the
    mark gives, the only stamp is at (0, 0). *)
Theorem odd_cell_is_painted :
  prepare nearest fits_c_int sample_disk (tile_args 10)
  = Ok (Prepared canvas30 mark40 (0, 0))
  /\ 0 < 0 + 10
  /\ (0 / (0 + 10) + 10 / (0 + 10)) mod 2 = 1
  /\ (forall n,
        exists layer,
          tile round255 (7 + n) (tile_args 10)
            (Prepared canvas30 mark40 (0, 0)) (new_layer (30, 30))
          = Some layer
          /\ layer = stamped round255 mark40
                       [(0, 0); (20, 0); (10, 10); (0, 20); (20, 20)]
                       (new_layer (30, 30))
          /\ getpixel layer 10 0 = RGBA 157 24 24 157
          /\ getpixel layer 10 0 <> transparent
          /\ add_watermark round255 nearest fits_c_int sample_disk always
              box_fits_c_int
               (7 + n) (tile_args 10)
             = Saves "out.png"
                 (PngFile (alpha_composite round255 canvas30 layer)))
  /\ grid_offsets 30 30 (40 + 10) (40 + 10) = [(0, 0)].
Proof.
  split; [apply tile_args_prepare|].
  split; [lia|].
  split; [reflexivity|].
  split; [|vm_compute; reflexivity].
  intros n. generalize (7 + n)%nat (Nat.le_add_r 7 n). intros fuel Hf.
  assert (Ht : tile round255 fuel (tile_args 10)
                 (Prepared canvas30 mark40 (0, 0)) (new_layer (30, 30))
               = Some (stamped round255 mark40
                         [(0, 0); (20, 0); (10, 10); (0, 20); (20, 20)]
                         (new_layer (30, 30)))).
  { rewrite (tile_grid round255 fuel (tile_args 10)
               (Prepared canvas30 mark40 (0, 0))).
    - cbn [original watermark_img size_wanted tile_padding tile_args fst
           snd].
      change (grid_offsets (im_width canvas30) (im_height canvas30) (0 + 10)
                (0 + 10))
        with [(0, 0); (20, 0); (10, 10); (0, 20); (20, 20)].
      reflexivity.
    - vm_compute. reflexivity.
    - vm_compute. reflexivity.
    - cbn [original size_wanted tile_padding tile_args fst snd].
      change (Z.to_nat (ceil_div (im_height canvas30) (0 + 10))) with 3%nat.
      change (Z.to_nat (ceil_div (im_width canvas30) (0 + 10))) with 3%nat.
      lia. }
  eexists. split; [exact Ht|]. split; [reflexivity|].
  split; [vm_compute; reflexivity|].
  split; [vm_compute; discriminate|].
  unfold add_watermark.
  rewrite tile_args_valid by lia.
  unfold try_block. rewrite tile_args_prepare.
  cbn [bind]. rewrite place_step_tile by reflexivity. unfold place.
  cbn [mode tile_args]. change (String.eqb "TILE" "TILE") with true.
  cbv iota. cbn [original].
  change (size canvas30) with (30, 30). rewrite Ht. reflexivity.
Qed.

(** ** C10: margin and position in TILE mode *)

Section Operation.

Variable div255 : Z -> Z.
Variable resize : image -> Z * Z -> image.
Variable can_resize : image -> Z * Z -> bool.
Variable open_rgba : string -> opened.
Variable can_save : string -> bool.
Variable can_paste : image -> Z * Z -> bool.

(** C10: in TILE mode two calls that pass the validation and differ in
    nothing but the margin and the position end the same way, with the same
    image written. *)
Theorem tile_ignores_placement (fuel : nat) (a : arguments) (m : Z)
    (pos : position_spec) :
  validation_error a = None ->
  validation_error (with_placement a m pos) = None ->
  mode a = "TILE"%string ->
  add_watermark div255 resize can_resize open_rgba can_save can_paste fuel
      (with_placement a m pos)
  = add_watermark div255 resize can_resize open_rgba can_save can_paste fuel a.
Proof.
  intros V1 V2 Hmode. unfold add_watermark. rewrite V1, V2.
  assert (E : try_block div255 resize can_resize open_rgba can_save can_paste
      fuel
                (with_placement a m pos)
              = try_block div255 resize can_resize open_rgba can_save can_paste
                  fuel a).
  { unfold try_block.
    change (prepare resize can_resize open_rgba (with_placement a m pos))
      with (prepare resize can_resize open_rgba a).
    destruct (prepare resize can_resize open_rgba a) as [p|e|]; try reflexivity.
    cbn [bind]. rewrite !place_step_tile by exact Hmode. unfold place.
    change (mode (with_placement a m pos)) with (mode a).
    rewrite Hmode. change (String.eqb "TILE" "TILE") with true. cbv iota.
    reflexivity. }
  rewrite E. reflexivity.
Qed.

(** A ValueError of the validation is raised whatever the files are: nothing
    is opened and nothing is written. *)
Lemma validation_comes_first (fuel : nat) (a : arguments) (msg : string) :
  validation_error a = Some msg ->
  add_watermark div255 resize can_resize open_rgba can_save can_paste fuel a =
      Raises msg.
Proof. intros V. unfold add_watermark. rewrite V. reflexivity. Qed.

End Operation.

(** C10 on the tiled sample, the margin and the position changed. *)
Lemma tile_ignores_placement_witness :
  add_watermark round255 nearest fits_c_int sample_disk always box_fits_c_int 20
    (with_placement (tile_args 10) 5 (PosTuple [3; 4]))
  = add_watermark round255 nearest fits_c_int sample_disk always box_fits_c_int
      20 (tile_args 10).
Proof.
  apply (tile_ignores_placement round255 nearest fits_c_int sample_disk always
      box_fits_c_int 20
           (tile_args 10) 5 (PosTuple [3; 4])); reflexivity.
Defined.

(** ** C7: validation *)

Lemma existsb_eqb_In (s : string) (l : list string) :
  existsb (String.eqb s) l = true -> In s l.
Proof.
  rewrite existsb_exists. intros (x & Hx & E).
  apply String.eqb_eq in E. subst x. exact Hx.
Qed.

(** X1: every configuration the validation is meant to refuse raises a
    ValueError before the [try] block, whatever the files are. *)
Lemma refused_raises (a : arguments) :
  refused a ->
  exists msg, forall div255 resize can_resize open_rgba can_save can_paste fuel,
    add_watermark div255 resize can_resize open_rgba can_save can_paste fuel a
        = Raises msg.
Proof.
  intros H. destruct (validation_error a) as [msg|] eqn:V.
  - exists msg. intros. apply validation_comes_first. exact V.
  - exfalso. unfold validation_error in V.
    destruct (proportion a <=? 0)%float eqn:E1; [discriminate|].
    destruct (1 <? proportion a)%float eqn:E2; [discriminate|].
    destruct (String.eqb (input_path a) "" || String.eqb (watermark_path a) ""
              || String.eqb (output_dir a) ""); [discriminate|].
    destruct (image_extension (input_path a)) eqn:E3; [|discriminate].
    destruct (image_extension (watermark_path a)) eqn:E4; [|discriminate].
    cbn [negb orb] in V.
    destruct (margin a <? 0) eqn:E5; [discriminate|].
    destruct (position_error (position a)) eqn:E6; [discriminate|].
    destruct (existsb (String.eqb (type_of_rescaling a))
                ["LINEAR"; "AREA"]%string) eqn:E7; [|discriminate].
    destruct (existsb (String.eqb (mode a)) ["SINGLE"; "TILE"]%string)
      eqn:E8; [|discriminate].
    cbn [negb] in V.
    destruct ((0 <=? opacity a)%float && (opacity a <=? 1)%float) eqn:E9;
      [|discriminate].
    cbn [negb] in V.
    destruct (tile_padding a <? 0) eqn:E10; [discriminate|].
    apply existsb_eqb_In in E7, E8.
    apply Z.ltb_ge in E5, E10.
    destruct H as [H|[H|[H|[H|[H|[H|[H|[H|[H|H]]]]]]]]];
      try congruence; try lia; try contradiction.
Qed.

(** C7 at a proportion that is not a number: both comparisons of lines
    27-30 are false, the validation passes, the images are opened, and the
    ValueError of [int(nan)] is printed by the [except] clause; an opacity
    that is not a number is refused by line 57. *)
Theorem nan_proportion_not_refused :
  (0 <? nan)%float = false
  /\ validation_error nan_proportion_args = None
  /\ (forall fuel,
        add_watermark round255 nearest fits_c_int sample_disk always
            box_fits_c_int fuel
          nan_proportion_args
        = Prints UnexpectedError)
  /\ validation_error nan_opacity_args
     = Some "Opacity must be a float between 0.0 and 1.0"%string.
Proof.
  split; [reflexivity|]. split; [reflexivity|].
  split; [|reflexivity].
  intros fuel. unfold add_watermark.
  change (validation_error nan_proportion_args) with (@None string).
  cbv iota.
  assert (E : try_block round255 nearest fits_c_int sample_disk always
      box_fits_c_int fuel
                nan_proportion_args = Exn OtherException).
  { unfold try_block.
    assert (P : prepare nearest fits_c_int sample_disk nan_proportion_args
                = Exn OtherException) by (vm_compute; reflexivity).
    rewrite P. reflexivity. }
  rewrite E. reflexivity.
Qed.

(** ** C8: decode errors in a batch *)







(** ** C2: Positioner *)

Lemma SFcompare_antisym (x y : spec_float) :
  SFcompare y x = option_map CompOpp (SFcompare x y).
Proof.
  destruct x as [sx|sx| |sx mx ex], y as [sy|sy| |sy my ey]; simpl;
    try destruct sx; try destruct sy; try reflexivity;
    rewrite (Z.compare_antisym ex ey); destruct (ex ?= ey); simpl;
    first [ reflexivity
          | rewrite Pos.compare_cont_antisym; reflexivity
          | rewrite CompOpp_involutive, Pos.compare_cont_antisym;
            reflexivity ].
Qed.

Lemma ltb_not_leb (x y : float) :
  (x <? y)%float = true -> (y <=? x)%float = false.
Proof.
  rewrite ltb_spec, leb_spec. unfold SFltb, SFleb.
  rewrite (SFcompare_antisym (Prim2SF x) (Prim2SF y)).
  destruct (SFcompare (Prim2SF x) (Prim2SF y)) as [[]|]; simpl; congruence.
Qed.

Lemma leb_not_ltb (x y : float) :
  (x <=? y)%float = true -> (y <? x)%float = false.
Proof.
  rewrite ltb_spec, leb_spec. unfold SFltb, SFleb.
  rewrite (SFcompare_antisym (Prim2SF x) (Prim2SF y)).
  destruct (SFcompare (Prim2SF x) (Prim2SF y)) as [[]|]; simpl; congruence.
Qed.

Lemma In_existsb_eqb (s : string) (l : list string) :
  In s l -> existsb (String.eqb s) l = true.
Proof.
  intros H. apply existsb_exists. exists s. split; [exact H|].
  apply String.eqb_refl.
Qed.

Lemma valid_position_passes (pos : position_spec) :
  valid_position pos -> position_error pos = None.
Proof.
  unfold position_error.
  intros [(s & -> & Hs)|(x & y & -> & Hx & Hy)].
  - assert (E : existsb (named (PosStr s)) named_positions = true).
    { apply existsb_exists. exists s. split; [exact Hs|].
      apply String.eqb_refl. }
    rewrite E. reflexivity.
  - cbn. apply Z.geb_le in Hx, Hy. rewrite Hx, Hy. reflexivity.
Qed.

(** A configuration as the spec asks for passes the validation. *)
Lemma valid_config_passes (a : arguments) :
  valid_config a -> validation_error a = None.
Proof.
  intros (P0 & P1 & O0 & O1 & I & Wm & Od & Ei & Ew & M & Pos & T & Mo & Tp).
  unfold validation_error.
  rewrite (ltb_not_leb _ _ P0), (leb_not_ltb _ _ P1).
  apply String.eqb_neq in I, Wm, Od. rewrite I, Wm, Od, Ei, Ew.
  cbn [negb orb].
  apply Z.ltb_ge in M, Tp. rewrite M, Tp.
  rewrite (valid_position_passes _ Pos).
  rewrite (In_existsb_eqb _ _ T), (In_existsb_eqb _ _ Mo), O0, O1.
  reflexivity.
Qed.

(** The opacity step never raises on a validated opacity. *)
Lemma apply_opacity_defined (o : float) (im : image) :
  (0 <=? o)%float = true -> (o <=? 1)%float = true ->
  exists out, apply_opacity o im = Some out.
Proof.
  intros H0 H1. unfold apply_opacity.
  destruct (o <? 1)%float; [|eexists; reflexivity].
  destruct (lookup_table_spec o H0 H1 256 0 ltac:(lia) ltac:(lia))
    as (lut & -> & _).
  eexists. reflexivity.
Qed.

(** The Positioner has an offset for every validated position. *)
Lemma positioner_defined (W H Mw Mh m : Z) (pos : position_spec) :
  valid_position pos -> exists xy, positioner W H Mw Mh m pos = Some xy.
Proof.
  intros V. unfold positioner.
  destruct (named pos "UPPER_LEFT"); [eexists; reflexivity|].
  destruct (named pos "UPPER_RIGHT"); [eexists; reflexivity|].
  destruct (named pos "LOWER_LEFT"); [eexists; reflexivity|].
  destruct (named pos "MIDDLE"); [eexists; reflexivity|].
  destruct V as [(s & -> & _)|(x & y & -> & _)]; eexists; reflexivity.
Qed.

(** A name that is not one of the five is refused by line 47. *)
Lemma unrecognised_name_refused (s : string) :
  ~ In s named_positions ->
  position_error (PosStr s)
  = Some "Position must be a tuple of (x, y) coordinates"%string.
Proof.
  intros Hs. unfold position_error.
  assert (E : existsb (named (PosStr s)) named_positions = false).
  { apply not_true_is_false. intros H. apply existsb_exists in H.
    destruct H as (n & Hn & E). apply String.eqb_eq in E. subst n.
    exact (Hs Hn). }
  rewrite E. reflexivity.
Qed.

(** A pair with a negative coordinate is refused by line 49. *)
Lemma negative_pair_refused (px py : Z) :
  px < 0 \/ py < 0 ->
  position_error (PosTuple [px; py])
  = Some "Position coordinates must be non-negative"%string.
Proof.
  intros H. unfold position_error.
  cbn [existsb named named_positions orb is_tuple negb items List.length
       Nat.eqb nth].
  destruct (px >=? 0) eqn:Ex; [|reflexivity].
  destruct (py >=? 0) eqn:Ey; [|reflexivity].
  apply Z.geb_le in Ex, Ey. lia.
Qed.

(** What lines 44-49 let through is an anchor name or a pair of
    non-negative coordinates. *)
Lemma accepted_position_valid (pos : position_spec) :
  position_error pos = None -> valid_position pos.
Proof.
  unfold position_error. destruct pos as [s|t|].
  - destruct (existsb (named (PosStr s)) named_positions) eqn:E;
      [|discriminate].
    intros _. left. exists s. split; [reflexivity|].
    apply existsb_exists in E. destruct E as (n & Hn & E).
    apply String.eqb_eq in E. subst n. exact Hn.
  - cbn [existsb named named_positions orb is_tuple negb items].
    destruct t as [|x [|y [|z t]]]; try discriminate.
    cbn [List.length Nat.eqb negb nth orb].
    destruct (x >=? 0) eqn:Ex; [|discriminate].
    destruct (y >=? 0) eqn:Ey; [|discriminate].
    intros _. right. exists x, y. apply Z.geb_le in Ex, Ey. tauto.
  - discriminate.
Qed.

(** With every other field as the spec asks, the ValueError of the call is
    the one of the position. *)
Lemma position_error_raised (a : arguments) (m : Z) (pos : position_spec)
    (msg : string) :
  valid_config a -> 0 <= m -> position_error pos = Some msg ->
  validation_error (with_placement a m pos) = Some msg.
Proof.
  intros (P0 & P1 & O0 & O1 & I & Wm & Od & Ei & Ew & _) Hm E.
  unfold validation_error, with_placement.
  cbn [proportion opacity input_path watermark_path output_dir margin
       position type_of_rescaling mode tile_padding].
  rewrite (ltb_not_leb _ _ P0), (leb_not_ltb _ _ P1).
  apply String.eqb_neq in I, Wm, Od. rewrite I, Wm, Od, Ei, Ew.
  cbn [negb orb].
  apply Z.ltb_ge in Hm. rewrite Hm, E. reflexivity.
Qed.

Section Positioner.

Variable div255 : Z -> Z.
Variable resize : image -> Z * Z -> image.
Variable can_resize : image -> Z * Z -> bool.
Variable open_rgba : string -> opened.
Variable can_save : string -> bool.
Variable can_paste : image -> Z * Z -> bool.

(** In SINGLE mode a call with a configuration as the spec asks, on two
    images that decode, whose resize, paste and save do not raise, is
    completed:
    the mark as lines 91-107 leave it is stamped once, at the offset the
    Positioner gives for its size, and the result is saved; the sign of the
    offset plays no part. *)
Lemma single_succeeds (fuel : nat) (a : arguments) (canvas mark : image) :
  valid_config a -> mode a = "SINGLE"%string ->
  open_rgba (input_path a) = Opened canvas ->
  open_rgba (watermark_path a) = Opened mark ->
  realistic canvas -> realistic mark ->
  resize_returns can_resize a canvas mark ->
  paste_returns can_paste resize a canvas mark ->
  can_save (output_dir a) = true ->
  exists sz wm pos f,
    wanted_size a canvas mark = Some sz
    /\ apply_opacity (opacity a) (resized resize mark sz) = Some wm
    /\ prepare resize can_resize open_rgba a = Ok (Prepared canvas wm sz)
    /\ positioner (im_width canvas) (im_height canvas) (im_width wm)
         (im_height wm) (margin a) (position a) = Some pos
    /\ save can_save
         (alpha_composite div255 canvas
            (paste div255 (new_layer (size canvas)) wm pos))
         (output_dir a) = Ok f
    /\ add_watermark div255 resize can_resize open_rgba can_save can_paste fuel
        a
       = Saves (output_dir a) f.
Proof.
  intros V Hmode Hc Hm (HW & HH) (HMw & HMh) Hr Hpaste Hsave.
  pose proof (valid_config_passes a V) as Vp.
  destruct V as (P0 & P1 & O0 & O1 & _ & _ & _ & _ & _ & M & Pos & _).
  destruct (new_size_floor (type_of_rescaling a) (im_width canvas)
              (im_height canvas) (im_width mark) (im_height mark)
              (proportion a) HW HH HMw HMh P0 P1)
    as (w & h & _ & _ & _ & _ & Hn).
  cbv zeta in Hn.
  destruct (apply_opacity_defined (opacity a) (resized resize mark (w, h))
              O0 O1) as (wm & Hwm).
  destruct (positioner_defined (im_width canvas) (im_height canvas)
              (im_width wm) (im_height wm) (margin a) (position a) Pos)
    as (pos & Hpos).
  assert (Hstep : resize_step resize can_resize mark (w, h)
                  = Ok (resized resize mark (w, h))).
  { unfold resize_step. cbn [fst snd].
    destruct (w >? 0) eqn:Ew; [|reflexivity].
    destruct (h >? 0) eqn:Eh; [|reflexivity].
    rewrite (Hr w h Hn) by (apply Z.gtb_lt; assumption). reflexivity. }
  assert (Hp : prepare resize can_resize open_rgba a
               = Ok (Prepared canvas wm (w, h))).
  { unfold prepare, open_image. rewrite Hc, Hm. cbn [bind]. unfold size.
    assert (E : (im_width mark =? 0) || (im_height mark =? 0) = false).
    { apply orb_false_iff. split; apply Z.eqb_neq; lia. }
    rewrite E, Hn. cbn [or_raise bind]. rewrite Hstep. cbn [bind].
    rewrite Hwm. reflexivity. }
  assert (E : (margin a >=? 0) = true) by (apply Z.geb_le; exact M).
  assert (Ho : single_offset a (Prepared canvas wm (w, h)) = Some pos).
  { unfold single_offset. rewrite Hmode.
    change (String.eqb "SINGLE" "TILE") with false. cbv iota.
    cbn [original watermark_img]. rewrite E. unfold size.
    cbv beta iota zeta. exact Hpos. }
  assert (Hl : place_step div255 can_paste fuel a (Prepared canvas wm (w, h))
               = Ok (paste div255 (new_layer (size canvas)) wm pos)).
  { rewrite (place_step_single _ _ _ _ _ _ Ho). cbn [watermark_img].
    rewrite (Hpaste (w, h) wm pos Hn Hwm Hpos).
    unfold place. rewrite Hmode.
    change (String.eqb "SINGLE" "TILE") with false. cbv iota.
    unfold single. cbn [original watermark_img].
    rewrite E. unfold size. cbv beta iota zeta.
    rewrite Hpos. reflexivity. }
  assert (Hs : exists f,
             save can_save
               (alpha_composite div255 canvas
                  (paste div255 (new_layer (size canvas)) wm pos))
               (output_dir a) = Ok f).
  { unfold save. rewrite Hsave. cbn [negb].
    destruct (existsb (endswith (lower (output_dir a)))
                [".jpg"; ".jpeg"]%string); eexists; reflexivity. }
  destruct Hs as (f & Hs).
  exists (w, h), wm, pos, f.
  split; [exact Hn|]. split; [exact Hwm|]. split; [exact Hp|].
  split; [exact Hpos|]. split; [exact Hs|].
  unfold add_watermark. rewrite Vp. unfold try_block.
  rewrite Hp. cbn [bind]. rewrite Hl. cbn [bind original]. rewrite Hs.
  reflexivity.
Qed.

(** C2, as amended: the if-chain of the Positioner returns the offset of
    the table for each anchor name and an explicit pair as it is, and its
    last branch is the LOWER_RIGHT offset; a position that is neither one of
    the five names nor a pair of non-negative coordinates never reaches that
    branch, because the validation raises a ValueError for it; the offsets
    are not checked against the canvas, and a SINGLE call with a
    configuration as the spec asks, on two images that decode, whose
    resize, paste and save do not raise, stamps the prepared mark at the
    offset of the table and writes the file, whatever the sign of the
    offset. *)
Theorem positioner_table :
  (forall W H Mw Mh m, 0 <= m ->
     positioner W H Mw Mh m (PosStr "UPPER_LEFT") = Some (m, m)
     /\ positioner W H Mw Mh m (PosStr "UPPER_RIGHT")
        = Some (W - Mw - m, m)
     /\ positioner W H Mw Mh m (PosStr "LOWER_LEFT")
        = Some (m, H - Mh - m)
     /\ positioner W H Mw Mh m (PosStr "MIDDLE")
        = Some ((W - Mw) / 2, (H - Mh) / 2)
     /\ (forall px py,
           positioner W H Mw Mh m (PosTuple [px; py]) = Some (px, py))
     /\ positioner W H Mw Mh m (PosStr "LOWER_RIGHT")
        = Some (W - Mw - m, H - Mh - m)
     /\ (forall s,
           ~ In s ["UPPER_LEFT"; "UPPER_RIGHT"; "LOWER_LEFT"; "MIDDLE"]%string ->
           positioner W H Mw Mh m (PosStr s)
           = Some (W - Mw - m, H - Mh - m))
     /\ positioner W H Mw Mh m PosOther = Some (W - Mw - m, H - Mh - m))
  /\ (forall fuel a m pos,
        valid_config a -> 0 <= m -> ~ valid_position pos ->
        exists msg,
          position_error pos = Some msg
          /\ add_watermark div255 resize can_resize open_rgba can_save
              can_paste fuel
               (with_placement a m pos) = Raises msg)
  /\ (forall s, ~ In s named_positions ->
        position_error (PosStr s)
        = Some "Position must be a tuple of (x, y) coordinates"%string)
  /\ (forall px py, px < 0 \/ py < 0 ->
        position_error (PosTuple [px; py])
        = Some "Position coordinates must be non-negative"%string)
  /\ (forall fuel a canvas mark,
        valid_config a -> mode a = "SINGLE"%string ->
        open_rgba (input_path a) = Opened canvas ->
        open_rgba (watermark_path a) = Opened mark ->
        realistic canvas -> realistic mark ->
        resize_returns can_resize a canvas mark ->
        paste_returns can_paste resize a canvas mark ->
        can_save (output_dir a) = true ->
        exists sz wm pos f,
          wanted_size a canvas mark = Some sz
          /\ apply_opacity (opacity a) (resized resize mark sz) = Some wm
          /\ prepare resize can_resize open_rgba a
             = Ok (Prepared canvas wm sz)
          /\ positioner (im_width canvas) (im_height canvas) (im_width wm)
               (im_height wm) (margin a) (position a) = Some pos
          /\ save can_save
               (alpha_composite div255 canvas
                  (paste div255 (new_layer (size canvas)) wm pos))
               (output_dir a) = Ok f
          /\ add_watermark div255 resize can_resize open_rgba can_save
              can_paste fuel a
             = Saves (output_dir a) f).
Proof.
  split; [|split; [|split; [|split]]].
  - intros W H Mw Mh m _.
    repeat split; try reflexivity.
    intros s Hs. unfold positioner, named.
    assert (N : forall n, In n ["UPPER_LEFT"; "UPPER_RIGHT"; "LOWER_LEFT";
                                "MIDDLE"]%string -> String.eqb s n = false).
    { intros n Hn. apply String.eqb_neq. intros ->. exact (Hs Hn). }
    rewrite !N by (simpl; tauto). reflexivity.
  - intros fuel a m pos V Hm Hpos.
    destruct (position_error pos) as [msg|] eqn:E.
    + exists msg. split; [reflexivity|].
      apply validation_comes_first.
      apply position_error_raised; assumption.
    + exfalso. apply Hpos. apply accepted_position_valid. exact E.
  - exact unrecognised_name_refused.
  - exact negative_pair_refused.
  - exact single_succeeds.
Qed.

End Positioner.

Lemma single_args_valid (m : Z) (pos : position_spec) :
  0 <= m -> valid_position pos -> valid_config (single_args m pos).
Proof.
  intros Hm Hp. unfold valid_config, single_args.
  cbn [proportion opacity input_path watermark_path output_dir margin
       position type_of_rescaling mode tile_padding].
  repeat split; try reflexivity; try discriminate; try assumption;
    try lia; simpl; tauto.
Qed.

(** C2 on a 4 x 4 canvas and a 2 x 2 mark: with a margin of 20 the offset
    is (-18, -18), the mark stamped is the one the call prepared, and the
    file is written; with the position "CENTER" the call raises. *)
Lemma positioner_table_witness :
  positioner 4 4 2 2 20 (PosStr "LOWER_RIGHT") = Some (-18, -18)
  /\ (exists wm f,
        prepare nearest fits_c_int sample_disk
          (single_args 20 (PosStr "LOWER_RIGHT"))
        = Ok (Prepared canvas4 wm (2, 2))
        /\ save always
             (alpha_composite round255 canvas4
                (paste round255 (new_layer (size canvas4)) wm (-18, -18)))
             "out.png" = Ok f
        /\ add_watermark round255 nearest fits_c_int sample_disk always
            box_fits_c_int 20
             (single_args 20 (PosStr "LOWER_RIGHT")) = Saves "out.png" f)
  /\ add_watermark round255 nearest fits_c_int sample_disk always
      box_fits_c_int 20
       (with_placement (single_args 20 (PosStr "LOWER_RIGHT")) 20
          (PosStr "CENTER"))
     = Raises "Position must be a tuple of (x, y) coordinates".
Proof.
  destruct (positioner_table round255 nearest fits_c_int sample_disk always
      box_fits_c_int)
    as (T & R & N & _ & S).
  assert (V : valid_config (single_args 20 (PosStr "LOWER_RIGHT"))).
  { apply single_args_valid; [lia|].
    left. exists "LOWER_RIGHT"%string. split; [reflexivity|simpl; tauto]. }
  split; [|split].
  - destruct (T 4 4 2 2 20) as (_ & _ & _ & _ & _ & E & _); [lia|exact E].
  - destruct (S 20%nat (single_args 20 (PosStr "LOWER_RIGHT")) canvas4 mark2)
      as (sz & wm & pos & f & Hn & _ & Hp & Hpos & Hs & E).
    + exact V.
    + reflexivity.
    + reflexivity.
    + reflexivity.
    + split; split; reflexivity.
    + split; split; reflexivity.
    + intros w h Hw _ _. vm_compute in Hw. injection Hw as <- <-.
      reflexivity.
    + intros sz wm pos Hn Hwm Hpos.
      vm_compute in Hn. injection Hn as <-.
      vm_compute in Hwm. injection Hwm as <-.
      vm_compute in Hpos. injection Hpos as <-. reflexivity.
    + reflexivity.
    + assert (Esz : sz = (2, 2)).
      { vm_compute in Hn. injection Hn as <-. reflexivity. }
      subst sz.
      assert (Ewm : size wm = (2, 2)).
      { vm_compute in Hp. injection Hp as <-. reflexivity. }
      assert (Epos : pos = (-18, -18)).
      { unfold size in Ewm. injection Ewm as Ew Eh.
        rewrite Ew, Eh in Hpos. vm_compute in Hpos.
        injection Hpos as <-. reflexivity. }
      subst pos. exists wm, f. split; [exact Hp|]. split; [exact Hs|exact E].
  - destruct (R 20%nat (single_args 20 (PosStr "LOWER_RIGHT")) 20
                (PosStr "CENTER") V) as (msg & Hmsg & E).
    + lia.
    + intros [(s & Es & Hs)|(x & y & Es & _)]; [|discriminate].
      injection Es as <-. simpl in Hs.
      repeat (destruct Hs as [Hs|Hs]; [discriminate|]). exact Hs.
    + rewrite N in Hmsg.
      * injection Hmsg as <-. exact E.
      * simpl. intros Hs.
        repeat (destruct Hs as [Hs|Hs]; [discriminate|]). exact Hs.
Defined.

(** C2 as the spec states it fails on a position that is none of the five
    names: the Positioner alone would give the LOWER_RIGHT offset for it,
    (2, 2) here, but the call never gets there and nothing is written; and
    an explicit pair is taken verbatim by the Positioner only when the
    validation let it through, which it does not with a negative
    coordinate. *)
Lemma unrecognised_spec_is_refused :
  positioner 4 4 2 2 0 (PosStr "CENTER") = Some (2, 2)
  /\ positioner 4 4 2 2 0 (PosTuple [-1; 0]) = Some (-1, 0)
  /\ (forall fuel,
        add_watermark round255 nearest fits_c_int sample_disk always
            box_fits_c_int fuel
          (single_args 0 (PosStr "CENTER"))
        = Raises "Position must be a tuple of (x, y) coordinates")
  /\ (forall fuel,
        add_watermark round255 nearest fits_c_int sample_disk always
            box_fits_c_int fuel
          (single_args 0 (PosTuple [-1; 0]))
        = Raises "Position coordinates must be non-negative").
Proof.
  split; [reflexivity|]. split; [reflexivity|].
  split; intros fuel; apply validation_comes_first; reflexivity.
Qed.

(** * Further properties of the source *)

(** ** Strings *)

Lemma string_app_assoc (a b c : string) :
  ((a ++ b) ++ c = a ++ (b ++ c))%string.
Proof. induction a as [|x a IH]; simpl; [|rewrite IH]; reflexivity. Qed.

Lemma string_length_app (a b : string) :
  String.length (a ++ b) = (String.length a + String.length b)%nat.
Proof. induction a as [|x a IH]; simpl; [|rewrite IH]; reflexivity. Qed.

Lemma lower_app (a b : string) : lower (a ++ b) = (lower a ++ lower b)%string.
Proof. induction a as [|x a IH]; simpl; [|rewrite IH]; reflexivity. Qed.

Lemma lower_length (a : string) : String.length (lower a) = String.length a.
Proof. induction a as [|x a IH]; simpl; [|rewrite IH]; reflexivity. Qed.

Lemma substring_app_skip (a b : string) (i k : nat) :
  substring (String.length a + i) k (a ++ b) = substring i k b.
Proof. induction a as [|x a IH]; simpl; [|rewrite IH]; reflexivity. Qed.

Lemma substring_whole (b : string) : substring 0 (String.length b) b = b.
Proof. induction b as [|x b IH]; simpl; [|rewrite IH]; reflexivity. Qed.

(** The last [k] characters of [a ++ b] are those of [b], when [b] has
    them. *)
Lemma endswith_app (a b suffix : string) :
  (String.length suffix <= String.length b)%nat ->
  endswith (a ++ b) suffix = endswith b suffix.
Proof.
  intros H. unfold endswith. rewrite string_length_app.
  replace (String.length a + String.length b - String.length suffix)%nat
    with (String.length a
          + (String.length b - String.length suffix))%nat by lia.
  rewrite substring_app_skip.
  destruct (Nat.leb_spec (String.length suffix) (String.length b));
    destruct (Nat.leb_spec (String.length suffix)
                (String.length a + String.length b)); try lia; reflexivity.
Qed.

Lemma endswith_refl (b : string) : endswith b b = true.
Proof.
  unfold endswith. rewrite Nat.leb_refl, Nat.sub_diag, substring_whole.
  apply String.eqb_refl.
Qed.

Lemma nonempty_app (a b : string) (c : ascii) :
  String.eqb (a ++ String c b) "" = false.
Proof. destruct a; reflexivity. Qed.

Lemma slash_nonempty (a b : string) :
  String.eqb (a ++ "/" ++ b) "" = false.
Proof. apply nonempty_app. Qed.

(** X3: the extension check of line 37 does not look at the case: a path
    that ends in .png, .jpg or .jpeg written in any mix of cases is an
    image path. *)
Theorem extension_any_case (name ext : string) :
  In (lower ext) [".png"; ".jpg"; ".jpeg"]%string ->
  image_extension (name ++ ext) = true.
Proof.
  intros H. unfold image_extension. rewrite lower_app.
  apply existsb_exists. exists (lower ext). split; [exact H|].
  rewrite endswith_app by lia. apply endswith_refl.
Qed.

Lemma extension_any_case_witness :
  image_extension "Holiday.Photo.JPeG" = true.
Proof.
  apply (extension_any_case "Holiday.Photo" ".JPeG").
  simpl. tauto.
Defined.

(** ** The driver: what a run writes *)

(** The arguments the driver passes to [add_watermark] for one file (lines
    208-219 and 229-240). *)
Definition driver_args (watermark_path output_dir : path)
    (mode position : string) (proportion : float) (margin tile_padding : Z)
    (rescaling_type : string) (opacity : float) (image_file : path)
    : arguments :=
  Arguments (str image_file) (str watermark_path)
    (output_filepath output_dir image_file) margin (PosStr position)
    opacity proportion rescaling_type mode tile_padding.

(** The name the driver writes to never ends in .jpg or .jpeg. *)
Lemma watermarked_is_png (output_dir image_file : path) :
  existsb (endswith (lower (output_filepath output_dir image_file)))
    [".jpg"; ".jpeg"]%string = false.
Proof.
  unfold output_filepath.
  rewrite <- !string_app_assoc, lower_app.
  change (lower "_watermarked.png") with "_watermarked.png"%string.
  cbn [existsb]. rewrite !endswith_app by (simpl; lia). reflexivity.
Qed.

(** A file the driver selects by its suffix passes the extension check of
    [add_watermark]. *)
Lemma selected_is_image (f : path) :
  valid_suffix f = true -> image_extension (str f) = true.
Proof.
  unfold valid_suffix, valid_extensions. intros H.
  apply existsb_exists in H. destruct H as (ext & Hin & E).
  apply String.eqb_eq in E.
  unfold str. rewrite <- !string_app_assoc.
  unfold image_extension. rewrite lower_app.
  apply existsb_exists. exists (lower (suffix f)). split; [rewrite E; exact Hin|].
  rewrite endswith_app by lia. apply endswith_refl.
Qed.

(** The validation gives the same verdict on every file the driver
    selects. *)
Lemma validation_uniform (wm out : path) (mo po : string) (pr : float)
    (ma tp : Z) (rt : string) (op : float) (f f' : path) :
  valid_suffix f = true -> valid_suffix f' = true ->
  validation_error (driver_args wm out mo po pr ma tp rt op f)
  = validation_error (driver_args wm out mo po pr ma tp rt op f').
Proof.
  intros V V'. unfold validation_error, driver_args.
  cbn [proportion input_path watermark_path output_dir margin position
       type_of_rescaling mode opacity tile_padding].
  rewrite (selected_is_image f V), (selected_is_image f' V').
  unfold output_filepath, str.
  rewrite !slash_nonempty. reflexivity.
Qed.

Section Driver.

Variable div255 : Z -> Z.
Variable resize : image -> Z * Z -> image.
Variable can_resize : image -> Z * Z -> bool.
Variable open_rgba : string -> opened.
Variable can_save : string -> bool.
Variable can_paste : image -> Z * Z -> bool.

(** A call that writes a file writes it to [output_dir], as a PNG unless the
    name ends in .jpg or .jpeg. *)
Lemma saves_inv (fuel : nat) (a : arguments) (out : string) (f : file) :
  add_watermark div255 resize can_resize open_rgba can_save can_paste fuel a =
      Saves out f ->
  out = output_dir a
  /\ (existsb (endswith (lower (output_dir a))) [".jpg"; ".jpeg"]%string
      = false -> exists im, f = PngFile im).
Proof.
  unfold add_watermark.
  destruct (validation_error a); [discriminate|].
  destruct (try_block div255 resize can_resize open_rgba can_save can_paste
      fuel a)
    as [f'|[]|] eqn:T; try discriminate.
  intros H. injection H as <- <-. split; [reflexivity|].
  intros Hpng. unfold try_block in T.
  destruct (prepare resize can_resize open_rgba a) as [p|e|]; try discriminate.
  cbn [bind] in T.
  destruct (place_step div255 can_paste fuel a p) as [l|e|];
    try discriminate.
  cbn [bind] in T. unfold save in T. rewrite Hpng in T.
  destruct (can_save (output_dir a)); cbn [negb] in T; [|discriminate].
  injection T as <-. eexists. reflexivity.
Qed.

(** The loop keeps what holds of the files written so far and of every file
    a call writes. *)
Lemma for_each_written (P : string * file -> Prop) (call : path -> outcome)
    (files : list path) :
  forall r,
    Forall P (written r) ->
    (forall f out file, In f files -> call f = Saves out file ->
       P (out, file)) ->
    Forall P (written (for_each call files r)).
Proof.
  induction files as [|f files IH]; intros r Hr Hc; simpl; [exact Hr|].
  destruct (call f) as [msg|m|out file|] eqn:E; simpl; try exact Hr.
  - apply IH; [exact Hr|]. intros; eapply Hc; [right|]; eassumption.
  - apply IH.
    + simpl. apply Forall_app. split; [exact Hr|].
      constructor; [|constructor]. apply (Hc f); [left; reflexivity|exact E].
    + intros; eapply Hc; [right|]; eassumption.
Qed.

(** A loop that ends normally has written or reported every file. *)
Lemma for_each_count (call : path -> outcome) (files : list path) :
  forall r,
    ended (for_each call files r) = Normal ->
    ended r = Normal
    /\ (successes (for_each call files r) + failures (for_each call files r)
        = successes r + failures r + List.length files)%nat.
Proof.
  induction files as [|f files IH]; intros r H; simpl in *.
  - split; [exact H|lia].
  - destruct (call f) as [msg|m|out file|] eqn:E; simpl in H;
      try discriminate.
    + destruct (IH _ H) as [N C]. simpl in N. split; [exact N|].
      rewrite C. unfold successes, failures. simpl.
      rewrite filter_app, length_app. simpl. lia.
    + destruct (IH _ H) as [N C]. simpl in N. split; [exact N|].
      rewrite C. unfold successes, failures. simpl.
      rewrite length_app. simpl. lia.
Qed.

(** When no call raises, the loop does not end on a ValueError. *)
Lemma for_each_no_raise (call : path -> outcome) (files : list path) :
  (forall f, In f files -> forall msg, call f <> Raises msg) ->
  forall r msg,
    ended (for_each call files r) = ValueErrorRaised msg ->
    ended r = ValueErrorRaised msg.
Proof.
  induction files as [|f files IH]; intros Hc r msg H; simpl in *;
    [exact H|].
  destruct (call f) as [msg'|m|out file|] eqn:E; simpl in H.
  - exfalso. exact (Hc f (or_introl eq_refl) msg' E).
  - apply (IH (fun f' Hf => Hc f' (or_intror Hf))) in H. exact H.
  - apply (IH (fun f' Hf => Hc f' (or_intror Hf))) in H. exact H.
  - discriminate.
Qed.

(** When the calls raise all together or not at all, a loop that stops on a
    ValueError has written nothing more. *)
Lemma for_each_raise_first (call : path -> outcome) (files : list path)
    (r : run) (msg : string) :
  (forall f f' m, In f files -> In f' files -> call f = Raises m ->
     call f' = Raises m) ->
  ended r = Normal ->
  ended (for_each call files r) = ValueErrorRaised msg ->
  written (for_each call files r) = written r.
Proof.
  intros U N H. destruct files as [|f files]; [reflexivity|].
  simpl in *.
  destruct (call f) as [msg'|m|out file|] eqn:E; simpl in *;
    try reflexivity; exfalso.
  - apply for_each_no_raise in H; [simpl in H; congruence|].
    intros f' Hf' m' E'.
    rewrite (U f' f m' (or_intror Hf') (or_introl eq_refl) E') in E.
    discriminate.
  - apply for_each_no_raise in H; [simpl in H; congruence|].
    intros f' Hf' m' E'.
    rewrite (U f' f m' (or_intror Hf') (or_introl eq_refl) E') in E.
    discriminate.
Qed.

Variable is_file : path -> bool.
Variable is_dir : path -> bool.
Variable iterdir : path -> list path.
Variable fuel : nat.
Variables input_path watermark_path output_dir : path.
Variables mode position : string.
Variable proportion : float.
Variables margin tile_padding : Z.
Variable rescaling_type : string.
Variable opacity : float.

Let the_run : run :=
  run_watermarker div255 resize can_resize open_rgba can_save can_paste is_file
      is_dir iterdir
    fuel input_path watermark_path output_dir mode position proportion
    margin tile_padding rescaling_type opacity.

Let call (image_file : path) : outcome :=
  add_watermark div255 resize can_resize open_rgba can_save can_paste fuel
    (driver_args watermark_path output_dir mode position proportion margin
       tile_padding rescaling_type opacity image_file).

(** The files the run goes through. *)
Definition processed : list path :=
  if negb (is_file watermark_path) then []
  else if is_dir input_path then filter valid_suffix (iterdir input_path)
  else if is_file input_path then
    if valid_suffix input_path then [input_path] else []
  else [].

Lemma finish_written (r : run) :
  written match ended r with
          | Normal => Run (console r ++ [ProcessFinished]) (written r) Normal
          | _ => r
          end = written r.
Proof. destruct (ended r); reflexivity. Qed.

Lemma finish_ended (r : run) :
  ended match ended r with
        | Normal => Run (console r ++ [ProcessFinished]) (written r) Normal
        | _ => r
        end = ended r.
Proof. destruct (ended r) eqn:E; simpl; congruence. Qed.

Lemma finish_failures (r : run) :
  failures match ended r with
           | Normal => Run (console r ++ [ProcessFinished]) (written r) Normal
           | _ => r
           end = failures r.
Proof.
  destruct (ended r); try reflexivity.
  unfold failures. cbn [console]. rewrite filter_app, length_app.
  simpl. lia.
Qed.

(** The run is the loop over the processed files, closed by the last line,
    or one of the early exits, which write nothing. *)
Lemma run_cases :
  (written the_run = [] /\ ended the_run <> Normal
   /\ (forall msg, ended the_run <> ValueErrorRaised msg))
  \/ (exists r0, written r0 = [] /\ ended r0 = Normal
        /\ failures r0 = 0%nat
        /\ processed <> []
        /\ written the_run = written (for_each call processed r0)
        /\ ended the_run = ended (for_each call processed r0)
        /\ failures the_run = failures (for_each call processed r0)).
Proof.
  unfold the_run, run_watermarker, processed.
  destruct (is_file watermark_path); cbn [negb];
    [|left; repeat split; intros; discriminate].
  destruct (is_dir input_path).
  - destruct (filter valid_suffix (iterdir input_path)) as [|f fs] eqn:F;
      [left; repeat split; intros; discriminate|].
    right. exists (Run [OutputDirectory; ProcessingDirectory] [] Normal).
    split; [reflexivity|]. split; [reflexivity|].
    split; [reflexivity|].
    split; [discriminate|].
    split; [apply finish_written|]. split; [apply finish_ended|].
    apply finish_failures.
  - destruct (is_file input_path);
      [|left; repeat split; intros; discriminate].
    destruct (valid_suffix input_path); cbn [negb];
      [|left; repeat split; intros; discriminate].
    right. exists (Run [OutputDirectory; ProcessingSingleFile] [] Normal).
    split; [reflexivity|]. split; [reflexivity|].
    split; [reflexivity|].
    split; [discriminate|].
    split; [apply finish_written|]. split; [apply finish_ended|].
    apply finish_failures.
Qed.


Lemma processed_valid (f : path) :
  In f processed -> valid_suffix f = true.
Proof.
  unfold processed.
  destruct (is_file watermark_path); cbn [negb]; [|contradiction].
  destruct (is_dir input_path).
  - intros H. apply filter_In in H. tauto.
  - destruct (is_file input_path); [|contradiction].
    destruct (valid_suffix input_path) eqn:E; [|contradiction].
    intros [<-|[]]. exact E.
Qed.

Lemma raises_inv (a : arguments) (msg : string) :
  add_watermark div255 resize can_resize open_rgba can_save can_paste fuel a =
      Raises msg ->
  validation_error a = Some msg.
Proof.
  unfold add_watermark. destruct (validation_error a); [congruence|].
  destruct (try_block div255 resize can_resize open_rgba can_save can_paste
      fuel a) as [|[]|];
    discriminate.
Qed.

(** X4: every file a run writes is a PNG named
    [<output_dir>/<stem>_watermarked.png] after one of the files the run
    goes through, which all have an image suffix. *)
Theorem run_writes_watermarked_png :
  Forall
    (fun w : string * file =>
       (exists f, In f processed /\ valid_suffix f = true
                  /\ fst w = output_filepath output_dir f)
       /\ exists im, snd w = PngFile im)
    (written the_run).
Proof.
  destruct run_cases as [(W & _)|(r0 & W0 & _ & _ & _ & W & _)].
  - rewrite W. constructor.
  - rewrite W. apply for_each_written; [rewrite W0; constructor|].
    intros f out file Hf Hc. unfold call in Hc.
    apply saves_inv in Hc. destruct Hc as [-> Hpng].
    cbn [fst snd]. split.
    + exists f. split; [exact Hf|]. split; [apply processed_valid; exact Hf|].
      reflexivity.
    + apply Hpng. apply watermarked_is_png.
Qed.

(** X5: in a run that ends normally every file gone through is either
    written or reported as failed: the two counts add up to the number of
    files. *)
Theorem run_accounts_for_every_file :
  ended the_run = Normal ->
  (successes the_run + failures the_run = List.length processed)%nat.
Proof.
  intros N.
  destruct run_cases as [(_ & H & _)|(r0 & W0 & N0 & F0 & _ & W & E & F)];
    [contradiction|].
  rewrite E in N. destruct (for_each_count _ _ _ N) as [_ C].
  unfold successes in *. rewrite W, F, C, W0, F0. simpl. lia.
Qed.

(** X6: a run that stops on a ValueError of the validation has written no
    file: the validation fails on the first file or on none. *)
Theorem value_error_writes_nothing (msg : string) :
  ended the_run = ValueErrorRaised msg -> written the_run = [].
Proof.
  intros H.
  destruct run_cases as [(W & _)|(r0 & W0 & N0 & _ & _ & W & E & _)];
    [exact W|].
  rewrite W, <- W0. rewrite E in H.
  apply (for_each_raise_first call processed r0 msg); try assumption.
  intros f f' m Hf Hf' Hc. unfold call in *.
  apply raises_inv in Hc. apply validation_comes_first.
  rewrite <- Hc. apply validation_uniform; apply processed_valid; assumption.
Qed.

End Driver.

(** X5 on a directory of two photographs, one of which does not decode. *)
Lemma run_accounts_for_every_file_witness :
  (successes (sample_run [photo_a; photo_broken])
   + failures (sample_run [photo_a; photo_broken]) = 2)%nat.
Proof.
  exact (run_accounts_for_every_file round255 nearest fits_c_int sample_disk
      always box_fits_c_int
           (fun p => same_path p mark_path) (fun p => same_path p photos)
           (fun _ => [photo_a; photo_broken]) 20%nat photos mark_path
           out_path "SINGLE"%string "LOWER_RIGHT"%string tenth 20 50
           "LINEAR"%string half eq_refl).
Defined.

(** A run with a proportion of 2. *)
Definition refused_run : run :=
  run_watermarker round255 nearest fits_c_int sample_disk always box_fits_c_int
    (fun p => same_path p mark_path) (fun p => same_path p photos)
    (fun _ => [photo_a; photo_broken]) 20 photos mark_path out_path
    "SINGLE" "LOWER_RIGHT" 2 20 50 "LINEAR" half.

(** X6 on that run. *)
Lemma value_error_writes_nothing_witness :
  ended refused_run
  = ValueErrorRaised "Proportion must be less than or equal to 1"
  /\ written refused_run = [].
Proof.
  split; [reflexivity|].
  exact (value_error_writes_nothing round255 nearest fits_c_int sample_disk
      always box_fits_c_int
           (fun p => same_path p mark_path) (fun p => same_path p photos)
           (fun _ => [photo_a; photo_broken]) 20%nat photos mark_path
           out_path "SINGLE"%string "LOWER_RIGHT"%string 2%float 20 50
           "LINEAR"%string half
           "Proportion must be less than or equal to 1"%string eq_refl).
Defined.

(** X1 on an opacity that is not a number. *)
Lemma refused_raises_witness :
  exists msg, forall div255 resize can_resize open_rgba can_save can_paste fuel,
    add_watermark div255 resize can_resize open_rgba can_save can_paste fuel
        nan_opacity_args
    = Raises msg.
Proof.
  apply (refused_raises nan_opacity_args).
  right. right. left. reflexivity.
Defined.

(** ** Validation of the position *)

(** X2: the position check of lines 44-49 accepts exactly the five anchor
    names and the pairs of non-negative coordinates. *)
Theorem position_error_iff (pos : position_spec) :
  position_error pos = None <-> valid_position pos.
Proof.
  split; [|apply valid_position_passes].
  unfold position_error. destruct pos as [s|t|].
  - destruct (existsb (named (PosStr s)) named_positions) eqn:E;
      [|discriminate].
    intros _. left. exists s. split; [reflexivity|].
    apply existsb_exists in E. destruct E as (n & Hn & E).
    apply String.eqb_eq in E. subst n. exact Hn.
  - cbn [existsb named named_positions orb is_tuple negb items].
    destruct t as [|x [|y [|z t]]]; try discriminate.
    cbn [List.length Nat.eqb negb nth orb].
    destruct (x >=? 0) eqn:Ex; [|discriminate].
    destruct (y >=? 0) eqn:Ey; [|discriminate].
    intros _. right. exists x, y. apply Z.geb_le in Ex, Ey. tauto.
  - discriminate.
Qed.

(** ** The tiling with a padding *)

Section Completion.

Variable div255 : Z -> Z.
Variable resize : image -> Z * Z -> image.
Variable can_resize : image -> Z * Z -> bool.
Variable open_rgba : string -> opened.
Variable can_save : string -> bool.
Variable can_paste : image -> Z * Z -> bool.

(** On a call with a configuration as the spec asks and two images that
    decode, lines 65-108 raise only if the resize of line 95 does, and
    [new_size] has no negative side. *)
Lemma prepare_succeeds (a : arguments) (canvas mark : image) :
  valid_config a ->
  open_rgba (input_path a) = Opened canvas ->
  open_rgba (watermark_path a) = Opened mark ->
  realistic canvas -> realistic mark ->
  resize_returns can_resize a canvas mark ->
  exists wm w h,
    0 <= w /\ 0 <= h
    /\ prepare resize can_resize open_rgba a = Ok (Prepared canvas wm (w, h)).
Proof.
  intros V Hc Hm (HW & HH) (HMw & HMh) Hr.
  destruct V as (P0 & P1 & O0 & O1 & _).
  destruct (new_size_floor (type_of_rescaling a) (im_width canvas)
              (im_height canvas) (im_width mark) (im_height mark)
              (proportion a) HW HH HMw HMh P0 P1)
    as (w & h & Hw & Hh & _ & _ & Hn).
  cbv zeta in Hn.
  destruct (apply_opacity_defined (opacity a) (resized resize mark (w, h))
              O0 O1) as (wm & Hwm).
  exists wm, w, h. split; [exact Hw|]. split; [exact Hh|].
  assert (Hstep : resize_step resize can_resize mark (w, h)
                  = Ok (resized resize mark (w, h))).
  { unfold resize_step. cbn [fst snd].
    destruct (w >? 0) eqn:Ew; [|reflexivity].
    destruct (h >? 0) eqn:Eh; [|reflexivity].
    rewrite (Hr w h Hn) by (apply Z.gtb_lt; assumption). reflexivity. }
  unfold prepare, open_image. rewrite Hc, Hm. cbn [bind]. unfold size.
  assert (E : (im_width mark =? 0) || (im_height mark =? 0) = false).
  { apply orb_false_iff. split; apply Z.eqb_neq; lia. }
  rewrite E, Hn. cbn [or_raise bind]. rewrite Hstep. cbn [bind].
  rewrite Hwm. reflexivity.
Qed.

(** X8: in TILE mode a call with a configuration as the spec asks
    (proportion in (0, 1] included) and a padding of at least one pixel, on
    two images that decode, whose resize and save do not raise, always ends
    and writes its file, whatever [new_size] is: the steps are then
    positive. *)
Theorem tile_with_padding_completes (a : arguments) (canvas mark : image) :
  valid_config a -> mode a = "TILE"%string -> 0 < tile_padding a ->
  open_rgba (input_path a) = Opened canvas ->
  open_rgba (watermark_path a) = Opened mark ->
  realistic canvas -> realistic mark ->
  resize_returns can_resize a canvas mark ->
  can_save (output_dir a) = true ->
  exists enough, forall fuel, (enough <= fuel)%nat ->
    exists f,
      add_watermark div255 resize can_resize open_rgba can_save can_paste fuel a
      = Saves (output_dir a) f.
Proof.
  intros V Hmode Hpad Hc Hm Rc Rm Hr Hsave.
  pose proof (valid_config_passes a V) as Vp.
  destruct (prepare_succeeds a canvas mark V Hc Hm Rc Rm Hr)
    as (wm & w & h & Hw & Hh & Hp).
  set (p := Prepared canvas wm (w, h)) in *.
  exists (S (Z.to_nat (ceil_div (im_height canvas) (h + tile_padding a))
             + Z.to_nat (ceil_div (im_width canvas) (w + tile_padding a)))).
  intros fuel Hf.
  assert (Ht : tile div255 fuel a p (new_layer (size canvas))
               = Some (stamped div255 wm
                         (grid_offsets (im_width canvas) (im_height canvas)
                            (w + tile_padding a) (h + tile_padding a))
                         (new_layer (size canvas)))).
  { apply (tile_grid div255 fuel a p (new_layer (size canvas)));
      unfold p; cbn [original size_wanted fst snd]; lia. }
  unfold add_watermark. rewrite Vp. unfold try_block. rewrite Hp.
  cbn [bind]. rewrite place_step_tile by exact Hmode.
  unfold place. rewrite Hmode.
  change (String.eqb "TILE" "TILE") with true. cbv iota.
  unfold p in Ht |- *. cbn [original] in Ht |- *. rewrite Ht.
  cbn [bind]. unfold save. rewrite Hsave. cbn [negb].
  destruct (existsb (endswith (lower (output_dir a)))
              [".jpg"; ".jpeg"]%string); eexists; reflexivity.
Qed.

End Completion.

Lemma tile_args_config (padding : Z) :
  0 <= padding -> valid_config (tile_args padding).
Proof.
  intros H. unfold valid_config, tile_args.
  cbn [proportion opacity input_path watermark_path output_dir margin
       position type_of_rescaling mode tile_padding].
  repeat split; try reflexivity; try discriminate; try lia;
    try (simpl; tauto).
  left. exists "LOWER_RIGHT"%string. split; [reflexivity|simpl; tauto].
Qed.

(** X8 on the 40 x 40 mark whose resize is skipped, with a padding of 10. *)
Lemma tile_with_padding_completes_witness :
  exists enough, forall fuel, (enough <= fuel)%nat ->
    exists f,
      add_watermark round255 nearest fits_c_int sample_disk always
          box_fits_c_int fuel (tile_args 10)
      = Saves "out.png" f.
Proof.
  apply (tile_with_padding_completes round255 nearest fits_c_int sample_disk
      always box_fits_c_int
           (tile_args 10) canvas30 mark40).
  - apply tile_args_config. lia.
  - reflexivity.
  - reflexivity.
  - reflexivity.
  - reflexivity.
  - split; split; reflexivity.
  - split; split; reflexivity.
  - intros w h Hw _ _. vm_compute in Hw. injection Hw as <- <-.
    reflexivity.
  - reflexivity.
Defined.

(** X7 on a 30 x 30 canvas with steps of 10. *)
Lemma tiling_terminates_witness :
  exists fuel layer',
    tile round255 fuel (tile_args 10) (Prepared canvas30 mark40 (0, 0))
      (new_layer (30, 30)) = Some layer'
    /\ cells_visited fuel 30 30 10 10 = Some 9%nat.
Proof.
  apply (tiling_terminates round255 (tile_args 10)
           (Prepared canvas30 mark40 (0, 0)) (new_layer (30, 30)));
    reflexivity.
Defined.

(** ** The shape of the checkerboard *)

(** X9: with positive steps, next to a stamped cell the cell to the right
    and the cell below are not stamped, while the cell two steps to the right
    and the cell one step down and right are, when they lie inside the
    canvas. *)
Theorem checkerboard_spacing (fuel : nat) (width height x_step y_step : Z)
    (offsets : list (Z * Z)) (x y : Z) :
  0 < x_step -> 0 < y_step ->
  (Z.to_nat (ceil_div height y_step) + Z.to_nat (ceil_div width x_step)
   < fuel)%nat ->
  stamp_offsets fuel width height x_step y_step = Some offsets ->
  In (x, y) offsets ->
  ~ In (x + x_step, y) offsets
  /\ ~ In (x, y + y_step) offsets
  /\ (x + 2 * x_step < width -> In (x + 2 * x_step, y) offsets)
  /\ (x + x_step < width -> y + y_step < height ->
      In (x + x_step, y + y_step) offsets).
Proof.
  intros Hx Hy Hf Hs H.
  rewrite (stamp_offsets_grid fuel width height x_step y_step Hx Hy Hf) in Hs.
  injection Hs as <-.
  rewrite !In_grid_offsets by assumption.
  apply In_grid_offsets in H; try assumption.
  destruct H as (r & c & Hr & Hc & -> & -> & Hxw & Hyh & E).
  repeat split.
  - intros (r' & c' & Hr' & Hc' & Ex & Ey & _ & _ & E').
    assert (c' = c + 1) by nia. assert (r' = r) by nia. subst.
    replace (r + (c + 1)) with (r + c + 1) in E' by lia.
    revert E E'. generalize (r + c). intros n E E'.
    Z.div_mod_to_equations. lia.
  - intros (r' & c' & Hr' & Hc' & Ex & Ey & _ & _ & E').
    assert (c' = c) by nia. assert (r' = r + 1) by nia. subst.
    replace (r + 1 + c) with (r + c + 1) in E' by lia.
    revert E E'. generalize (r + c). intros n E E'.
    Z.div_mod_to_equations. lia.
  - intros Hin. exists r, (c + 2). repeat split; try lia.
    replace (r + (c + 2)) with (r + c + 1 * 2) by lia.
    rewrite Z.mod_add by lia. exact E.
  - intros Hin Hin'. exists (r + 1), (c + 1). repeat split; try lia.
    replace (r + 1 + (c + 1)) with (r + c + 1 * 2) by lia.
    rewrite Z.mod_add by lia. exact E.
Qed.

(** X9 on a 400 x 400 canvas with steps of 60, at the first cell. *)
Lemma checkerboard_spacing_witness :
  exists offsets,
    stamp_offsets 15 400 400 60 60 = Some offsets
    /\ ~ In (60, 0) offsets /\ ~ In (0, 60) offsets
    /\ In (120, 0) offsets /\ In (60, 60) offsets.
Proof.
  eexists. split; [vm_compute; reflexivity|].
  destruct (checkerboard_spacing 15 400 400 60 60 _ 0 0
              ltac:(lia) ltac:(lia) ltac:(vm_compute; lia) eq_refl)
    as (A & B & C & D).
  - left. reflexivity.
  - repeat split; [exact A|exact B|apply C; lia|apply D; lia].
Defined.

Section OneStamp.

Variable div255 : Z -> Z.

(** X10: when both steps reach past the canvas, the TILE branch stamps the
    mark once, at (0,0): it builds the layer the SINGLE branch builds for the
    explicit position (0, 0). *)
Theorem tile_of_one_cell (fuel : nat) (a a' : arguments) (p : prepared) :
  mode a = "TILE"%string ->
  mode a' = "SINGLE"%string -> position a' = PosTuple [0; 0] ->
  0 < im_width (original p) <= fst (size_wanted p) + tile_padding a ->
  0 < im_height (original p) <= snd (size_wanted p) + tile_padding a ->
  (2 < fuel)%nat ->
  place div255 fuel a p
  = Ok (paste div255 (new_layer (size (original p))) (watermark_img p) (0, 0))
  /\ place div255 fuel a' p = place div255 fuel a p.
Proof.
  intros Hm Hm' Hpos HW HH Hf.
  assert (E1 : forall extent step, 0 < extent <= step ->
                 ceil_div extent step = 1).
  { intros e s He. unfold ceil_div. symmetry.
    apply (Z.div_unique _ _ _ (e - 1)); lia. }
  assert (T : place div255 fuel a p
              = Ok (paste div255 (new_layer (size (original p)))
                      (watermark_img p) (0, 0))).
  { unfold place. rewrite Hm. change (String.eqb "TILE" "TILE") with true.
    cbv iota.
    rewrite (tile_grid div255 fuel a p).
    - unfold grid_offsets, row_offsets.
      rewrite !E1 by assumption. reflexivity.
    - lia.
    - lia.
    - rewrite !E1 by assumption. simpl. lia. }
  split; [exact T|]. rewrite T.
  unfold place. rewrite Hm'.
  change (String.eqb "SINGLE" "TILE") with false. cbv iota.
  unfold single, size. rewrite Hpos.
  destruct (margin a' >=? 0); reflexivity.
Qed.

End OneStamp.

Lemma tile_of_one_cell_witness :
  place round255 5 (tile_args 30) (Prepared canvas30 mark40 (0, 0))
  = Ok (paste round255 (new_layer (30, 30)) mark40 (0, 0)).
Proof.
  apply (tile_of_one_cell round255 5 (tile_args 30)
           (single_args 0 (PosTuple [0; 0]))
           (Prepared canvas30 mark40 (0, 0)));
    try reflexivity; try (simpl; lia).
Defined.

(** ** Where the Positioner puts the mark *)

(** X11: MIDDLE leaves as much room on the left as on the right, and above
    as below, up to the one pixel of the floor division, which goes to the
    right and to the bottom. *)
Theorem middle_is_centred (W H Mw Mh m : Z) :
  exists x y,
    positioner W H Mw Mh m (PosStr "MIDDLE") = Some (x, y)
    /\ 0 <= (W - (x + Mw)) - x <= 1
    /\ 0 <= (H - (y + Mh)) - y <= 1
    /\ ((W - Mw) mod 2 = 0 -> W - (x + Mw) = x)
    /\ ((H - Mh) mod 2 = 0 -> H - (y + Mh) = y).
Proof.
  exists ((W - Mw) / 2), ((H - Mh) / 2).
  split; [reflexivity|].
  pose proof (Z.div_mod (W - Mw) 2 ltac:(lia)) as Dw.
  pose proof (Z.mod_pos_bound (W - Mw) 2 ltac:(lia)) as Bw.
  pose proof (Z.div_mod (H - Mh) 2 ltac:(lia)) as Dh.
  pose proof (Z.mod_pos_bound (H - Mh) 2 ltac:(lia)) as Bh.
  split; [lia|]. split; [lia|]. split; intros E; lia.
Qed.

(** X12: a mark that fits the canvas with the margin on both sides is
    placed, for each of the five anchors, entirely inside the canvas and at
    least the margin away from every edge. *)
Theorem anchors_keep_the_margin (W H Mw Mh m : Z) (name : string) :
  In name named_positions ->
  0 <= m -> Mw + 2 * m <= W -> Mh + 2 * m <= H ->
  exists x y,
    positioner W H Mw Mh m (PosStr name) = Some (x, y)
    /\ m <= x /\ x + Mw <= W - m /\ m <= y /\ y + Mh <= H - m.
Proof.
  intros Hn Hm HW HH.
  assert (Hmid : m <= (W - Mw) / 2 /\ (W - Mw) / 2 + Mw <= W - m
                 /\ m <= (H - Mh) / 2 /\ (H - Mh) / 2 + Mh <= H - m)
    by (Z.div_mod_to_equations; lia).
  simpl in Hn.
  destruct Hn as [<-|[<-|[<-|[<-|[<-|[]]]]]];
    eexists; eexists; (split; [reflexivity|]); lia.
Qed.

Lemma anchors_keep_the_margin_witness :
  exists x y,
    positioner 1000 500 100 50 20 (PosStr "LOWER_RIGHT") = Some (x, y)
    /\ 20 <= x /\ x + 100 <= 1000 - 20 /\ 20 <= y /\ y + 50 <= 500 - 20.
Proof.
  apply (anchors_keep_the_margin 1000 500 100 50 20 "LOWER_RIGHT");
    [simpl; tauto|lia|lia|lia].
Defined.

(** ** Arguments a mode does not read *)

(** The same call with another tile padding. *)
Definition with_tile_padding (a : arguments) (t : Z) : arguments :=
  Arguments (input_path a) (watermark_path a) (output_dir a) (margin a)
    (position a) (opacity a) (proportion a) (type_of_rescaling a) (mode a) t.

(** The margin plays no part for MIDDLE and for an explicit pair. *)
Lemma positioner_without_margin (W H Mw Mh m m' : Z) (pos : position_spec) :
  pos = PosStr "MIDDLE" \/ is_tuple pos = true ->
  positioner W H Mw Mh m pos = positioner W H Mw Mh m' pos.
Proof.
  intros [->|Ht]; [reflexivity|].
  destruct pos as [s|t|]; try discriminate. reflexivity.
Qed.

Section Unread.

Variable div255 : Z -> Z.
Variable resize : image -> Z * Z -> image.
Variable can_resize : image -> Z * Z -> bool.
Variable open_rgba : string -> opened.
Variable can_save : string -> bool.
Variable can_paste : image -> Z * Z -> bool.

(** X13: in SINGLE mode two calls that pass the validation and differ in
    nothing but the tile padding end the same way. *)
Theorem single_ignores_tile_padding (fuel : nat) (a : arguments) (t : Z) :
  validation_error a = None ->
  validation_error (with_tile_padding a t) = None ->
  mode a = "SINGLE"%string ->
  add_watermark div255 resize can_resize open_rgba can_save can_paste fuel
      (with_tile_padding a t)
  = add_watermark div255 resize can_resize open_rgba can_save can_paste fuel a.
Proof.
  intros V1 V2 Hmode. unfold add_watermark. rewrite V1, V2.
  assert (E : try_block div255 resize can_resize open_rgba can_save can_paste
      fuel
                (with_tile_padding a t)
              = try_block div255 resize can_resize open_rgba can_save can_paste
                  fuel a).
  { unfold try_block.
    change (prepare resize can_resize open_rgba (with_tile_padding a t))
      with (prepare resize can_resize open_rgba a).
    destruct (prepare resize can_resize open_rgba a) as [p|e|]; try reflexivity.
    cbn [bind].
    assert (P : place div255 fuel (with_tile_padding a t) p
                = place div255 fuel a p).
    { unfold place.
      change (mode (with_tile_padding a t)) with (mode a).
      rewrite Hmode. change (String.eqb "SINGLE" "TILE") with false.
      cbv iota. reflexivity. }
    unfold place_step.
    change (single_offset (with_tile_padding a t) p)
      with (single_offset a p).
    rewrite P. reflexivity. }
  rewrite E. reflexivity.
Qed.

(** X14: in SINGLE mode, when the position is MIDDLE or an explicit pair,
    two calls that pass the validation and differ in nothing but the margin
    end the same way. *)
Theorem middle_and_pairs_ignore_margin (fuel : nat) (a : arguments) (m : Z) :
  position a = PosStr "MIDDLE" \/ is_tuple (position a) = true ->
  validation_error a = None ->
  validation_error (with_placement a m (position a)) = None ->
  mode a = "SINGLE"%string ->
  add_watermark div255 resize can_resize open_rgba can_save can_paste fuel
    (with_placement a m (position a))
  = add_watermark div255 resize can_resize open_rgba can_save can_paste fuel a.
Proof.
  intros Hpos V1 V2 Hmode. unfold add_watermark. rewrite V1, V2.
  assert (E : try_block div255 resize can_resize open_rgba can_save can_paste
      fuel
                (with_placement a m (position a))
              = try_block div255 resize can_resize open_rgba can_save can_paste
                  fuel a).
  { unfold try_block.
    change (prepare resize can_resize open_rgba (with_placement a m (position
        a)))
      with (prepare resize can_resize open_rgba a).
    destruct (prepare resize can_resize open_rgba a) as [p|e|]; try reflexivity.
    cbn [bind].
    assert (P : place div255 fuel (with_placement a m (position a)) p
                = place div255 fuel a p).
    { unfold place.
      change (mode (with_placement a m (position a))) with (mode a).
      rewrite Hmode. change (String.eqb "SINGLE" "TILE") with false.
      cbv iota. unfold single.
      change (margin (with_placement a m (position a))) with m.
      change (position (with_placement a m (position a)))
        with (position a).
      destruct (size (original p)) as [width height].
      destruct (size (watermark_img p)) as [wm_width wm_height].
      rewrite (positioner_without_margin width height wm_width wm_height
                 (if m >=? 0 then m else 0)
                 (if margin a >=? 0 then margin a else 0) (position a)
                 Hpos).
      reflexivity. }
    assert (O : single_offset (with_placement a m (position a)) p
                = single_offset a p).
    { unfold single_offset.
      change (mode (with_placement a m (position a))) with (mode a).
      change (margin (with_placement a m (position a))) with m.
      change (position (with_placement a m (position a)))
        with (position a).
      destruct (String.eqb (mode a) "TILE"); [reflexivity|].
      destruct (size (original p)) as [width height].
      destruct (size (watermark_img p)) as [wm_width wm_height].
      apply positioner_without_margin. exact Hpos. }
    unfold place_step. rewrite O, P. reflexivity. }
  rewrite E. reflexivity.
Qed.

End Unread.

Lemma single_ignores_tile_padding_witness :
  add_watermark round255 nearest fits_c_int sample_disk always box_fits_c_int 20
    (with_tile_padding (single_args 1 (PosStr "MIDDLE")) 77)
  = add_watermark round255 nearest fits_c_int sample_disk always box_fits_c_int
      20
      (single_args 1 (PosStr "MIDDLE")).
Proof.
  apply (single_ignores_tile_padding round255 nearest fits_c_int sample_disk
      always box_fits_c_int 20
           (single_args 1 (PosStr "MIDDLE")) 77); reflexivity.
Defined.

Lemma middle_and_pairs_ignore_margin_witness :
  add_watermark round255 nearest fits_c_int sample_disk always box_fits_c_int 20
    (with_placement (single_args 1 (PosTuple [1; 2])) 300 (PosTuple [1; 2]))
  = add_watermark round255 nearest fits_c_int sample_disk always box_fits_c_int
      20
      (single_args 1 (PosTuple [1; 2])).
Proof.
  apply (middle_and_pairs_ignore_margin round255 nearest fits_c_int sample_disk
      always box_fits_c_int
           20 (single_args 1 (PosTuple [1; 2])) 300);
    [right; reflexivity|reflexivity|reflexivity|reflexivity].
Defined.

(** ** A mark of opacity 0 *)

Lemma lookup_table_zero : lookup_table 0 0 256 = Some (repeat 0 256).
Proof. vm_compute. reflexivity. Qed.

(** After an opacity of 0.0 every alpha sample of the mark is 0, inside the
    image and out of it. *)
Lemma point_alpha_zero (im : image) (x y : Z) :
  alpha (getpixel (point_alpha (repeat 0 256) im) x y) = 0.
Proof.
  unfold getpixel, point_alpha, map_pixels. cbn [im_data im_width].
  set (k := Z.to_nat (y * im_width im + x)).
  destruct (Nat.lt_ge_cases k (List.length (im_data im))) as [Hk|Hk].
  - rewrite (nth_mapi _ transparent transparent) by exact Hk. cbn [alpha].
    apply nth_repeat.
  - rewrite nth_overflow by (rewrite mapi_length; exact Hk). reflexivity.
Qed.

Lemma new_layer_pixels (sz : Z * Z) : Forall pixel_ok (im_data (new_layer sz)).
Proof.
  unfold new_layer. simpl. apply Forall_forall. intros p Hp.
  apply repeat_spec in Hp. subst p.
  unfold pixel_ok, sample_ok, transparent. simpl. lia.
Qed.

Section Invisible.

Variable div255 : Z -> Z.
Hypothesis div255_exact : forall c, 0 <= c <= 255 -> div255 (c * 255) = c.

Lemma blend_transparent (under over : Z) :
  0 <= under <= 255 -> blend div255 0 under over = under.
Proof.
  intros H. unfold blend.
  replace (over * 0 + under * (255 - 0)) with (under * 255) by lia.
  apply div255_exact. exact H.
Qed.

(** Stamping a mark whose alpha is 0 everywhere changes no pixel. *)
Lemma paste_invisible (layer im : image) (box : Z * Z) :
  (forall x y, alpha (getpixel im x y) = 0) ->
  Forall pixel_ok (im_data layer) ->
  paste div255 layer im box = layer.
Proof.
  intros Hinv Hok. destruct layer as [W H data]. simpl in Hok.
  rewrite Forall_forall in Hok.
  unfold paste, map_pixels. simpl. f_equal.
  apply (mapi_nth_eq _ transparent transparent); [reflexivity|].
  intros k Hk.
  destruct (inside im (Z.of_nat k mod W - fst box)
              (Z.of_nat k / W - snd box)); [|reflexivity].
  cbv zeta. rewrite Hinv.
  destruct (Hok (nth k data transparent) (nth_In _ _ Hk))
    as (Hr & Hg & Hb & Ha).
  rewrite !blend_transparent by assumption.
  destruct (nth k data transparent). reflexivity.
Qed.

Lemma stamped_invisible (im : image) (offsets : list (Z * Z)) :
  (forall x y, alpha (getpixel im x y) = 0) ->
  forall layer, Forall pixel_ok (im_data layer) ->
    stamped div255 im offsets layer = layer.
Proof.
  intros Hinv. unfold stamped.
  induction offsets as [|o offsets IH]; intros layer Hok; simpl;
    [reflexivity|].
  rewrite paste_invisible by assumption. apply IH. exact Hok.
Qed.

(** Compositing the untouched transparent layer gives the canvas back. *)
Lemma composite_transparent (canvas : image) :
  image_ok canvas ->
  alpha_composite div255 canvas (new_layer (size canvas)) = canvas.
Proof.
  intros (_ & _ & _ & Hok). destruct canvas as [W H data]. simpl in Hok.
  rewrite Forall_forall in Hok.
  unfold alpha_composite, map_pixels. simpl im_width. simpl im_height.
  simpl im_data. f_equal.
  apply (mapi_nth_eq _ transparent transparent); [reflexivity|].
  intros k Hk. rewrite getpixel_new_layer.
  destruct (Hok (nth k data transparent) (nth_In _ _ Hk))
    as (Hr & Hg & Hb & Ha).
  destruct (nth k data transparent) as [r g b al].
  cbn [red green blue alpha] in Hr, Hg, Hb, Ha.
  unfold composite_pixel, transparent. cbn [red green blue alpha].
  rewrite !blend_transparent by assumption.
  replace (255 * 0 + al * (255 - 0)) with (al * 255) by lia.
  rewrite div255_exact by assumption. reflexivity.
Qed.

Variable resize : image -> Z * Z -> image.
Variable can_resize : image -> Z * Z -> bool.
Variable open_rgba : string -> opened.
Variable can_save : string -> bool.
Variable can_paste : image -> Z * Z -> bool.

(** X15: with an opacity of 0.0 the file written is the canvas itself, pixel
    for pixel, in SINGLE mode and in TILE mode; the only other way a call
    with a configuration as the spec asks (proportion in (0, 1] included),
    on two images that decode, whose resize, paste and save do not raise,
    can end is a TILE call that never returns. *)
Theorem zero_opacity_keeps_canvas (fuel : nat) (a : arguments)
    (canvas mark : image) :
  valid_config a -> opacity a = 0%float ->
  open_rgba (input_path a) = Opened canvas ->
  open_rgba (watermark_path a) = Opened mark ->
  realistic canvas -> realistic mark -> image_ok canvas ->
  resize_returns can_resize a canvas mark ->
  paste_returns can_paste resize a canvas mark ->
  can_save (output_dir a) = true ->
  existsb (endswith (lower (output_dir a))) [".jpg"; ".jpeg"]%string = false ->
  add_watermark div255 resize can_resize open_rgba can_save can_paste fuel a
  = Saves (output_dir a) (PngFile canvas)
  \/ (mode a = "TILE"%string
      /\ add_watermark div255 resize can_resize open_rgba can_save can_paste
          fuel a = Hangs).
Proof.
  intros V Ho Hc Hm (HW & HH) (HMw & HMh) Hok Hr Hpaste Hsave Hpng.
  pose proof (valid_config_passes a V) as Vp.
  destruct V as (P0 & P1 & _ & _ & _ & _ & _ & _ & _ & M & Pos & _ & Mo & _).
  destruct (new_size_floor (type_of_rescaling a) (im_width canvas)
              (im_height canvas) (im_width mark) (im_height mark)
              (proportion a) HW HH HMw HMh P0 P1)
    as (w & h & _ & _ & _ & _ & Hn).
  cbv zeta in Hn.
  set (wm := point_alpha (repeat 0 256) (resized resize mark (w, h))).
  assert (Hinv : forall x y, alpha (getpixel wm x y) = 0)
    by (intros; apply point_alpha_zero).
  assert (Hwm : apply_opacity (opacity a) (resized resize mark (w, h))
                = Some wm).
  { unfold apply_opacity. rewrite Ho.
    change (0 <? 1)%float with true. cbv iota.
    rewrite lookup_table_zero. reflexivity. }
  assert (Hstep : resize_step resize can_resize mark (w, h)
                  = Ok (resized resize mark (w, h))).
  { unfold resize_step. cbn [fst snd].
    destruct (w >? 0) eqn:Ew; [|reflexivity].
    destruct (h >? 0) eqn:Eh; [|reflexivity].
    rewrite (Hr w h Hn) by (apply Z.gtb_lt; assumption). reflexivity. }
  assert (Hp : prepare resize can_resize open_rgba a
               = Ok (Prepared canvas wm (w, h))).
  { unfold prepare, open_image. rewrite Hc, Hm. cbn [bind]. unfold size.
    assert (E : (im_width mark =? 0) || (im_height mark =? 0) = false).
    { apply orb_false_iff. split; apply Z.eqb_neq; lia. }
    rewrite E, Hn. cbn [or_raise bind]. rewrite Hstep. cbn [bind].
    rewrite Hwm. reflexivity. }
  assert (Hfinal : save can_save
                     (alpha_composite div255 canvas (new_layer (size canvas)))
                     (output_dir a) = Ok (PngFile canvas)).
  { unfold save. rewrite Hsave, Hpng. cbn [negb].
    rewrite composite_transparent by exact Hok. reflexivity. }
  unfold add_watermark. rewrite Vp. unfold try_block. rewrite Hp.
  cbn [bind].
  destruct Mo as [Hmode|[Hmode|[]]]; symmetry in Hmode.
  - left.
    assert (E : (margin a >=? 0) = true) by (apply Z.geb_le; exact M).
    destruct (positioner_defined (im_width canvas) (im_height canvas)
                (im_width wm) (im_height wm) (margin a) (position a) Pos)
      as (pos & Hpos).
    assert (Hso : single_offset a (Prepared canvas wm (w, h)) = Some pos).
    { unfold single_offset. rewrite Hmode.
      change (String.eqb "SINGLE" "TILE") with false. cbv iota.
      cbn [original watermark_img]. rewrite E. unfold size.
      cbv beta iota zeta. exact Hpos. }
    rewrite (place_step_single _ _ _ _ _ _ Hso). cbn [watermark_img].
    rewrite (Hpaste (w, h) wm pos Hn Hwm Hpos).
    unfold place. cbn [original]. rewrite Hmode.
    change (String.eqb "SINGLE" "TILE") with false. cbv iota.
    unfold single. cbn [original watermark_img]. rewrite E.
    unfold size. cbv beta iota zeta. rewrite Hpos. cbn [or_raise bind].
    rewrite paste_invisible by (try assumption; apply new_layer_pixels).
    fold (size canvas). rewrite Hfinal. reflexivity.
  - rewrite place_step_tile by exact Hmode.
    unfold place. cbn [original]. rewrite Hmode.
    change (String.eqb "TILE" "TILE") with true. cbv iota.
    pose proof (tile_stamps div255 fuel a (Prepared canvas wm (w, h))
                  (new_layer (size canvas))) as R.
    cbn [original watermark_img size_wanted] in R.
    destruct (tile div255 fuel a (Prepared canvas wm (w, h))
                (new_layer (size canvas))) as [l|].
    + left.
      destruct (stamp_offsets fuel (im_width canvas) (im_height canvas)
                  (fst (w, h) + tile_padding a) (snd (w, h) + tile_padding a))
        as [offsets|]; simpl in R; [|contradiction].
      subst l.
      rewrite stamped_invisible by (try assumption; apply new_layer_pixels).
      cbn [bind]. rewrite Hfinal. reflexivity.
    + right. split; reflexivity.
Qed.

(** X16: a mark that decodes to an image with a side of 0 makes the call
    print the unexpected-error line and return: the ValueError of line 78 is
    raised inside the [try] block and never reaches the caller. *)
Theorem empty_mark_is_reported (fuel : nat) (a : arguments)
    (canvas mark : image) :
  validation_error a = None ->
  open_rgba (input_path a) = Opened canvas ->
  open_rgba (watermark_path a) = Opened mark ->
  im_width mark = 0 \/ im_height mark = 0 ->
  add_watermark div255 resize can_resize open_rgba can_save can_paste fuel a
  = Prints UnexpectedError.
Proof.
  intros V Hc Hm Hz. unfold add_watermark. rewrite V.
  unfold try_block, prepare, open_image. rewrite Hc, Hm. cbn [bind].
  unfold size.
  assert (E : (im_width mark =? 0) || (im_height mark =? 0) = true).
  { apply orb_true_iff. destruct Hz as [Hz|Hz]; [left|right];
      apply Z.eqb_eq; exact Hz. }
  rewrite E. reflexivity.
Qed.

End Invisible.

(** A mark placed with an opacity of 0, and a disk whose mark is empty. *)
Definition faint_args : arguments :=
  Arguments "small.png" "dot.png" "out.png" 0 (PosStr "MIDDLE")
    0 half "LINEAR" "SINGLE" 10.

Definition empty_mark_disk : string -> opened :=
  disk [("small.png", Opened canvas4);
        ("dot.png", Opened (Image 0 0 []))]%string.

(** X15 on a 4 x 4 canvas. *)
Lemma zero_opacity_keeps_canvas_witness :
  add_watermark round255 nearest fits_c_int sample_disk always box_fits_c_int
      20 faint_args
  = Saves "out.png" (PngFile canvas4).
Proof.
  destruct (zero_opacity_keeps_canvas round255 round255_exact nearest
              fits_c_int sample_disk always box_fits_c_int 20 faint_args
                  canvas4 mark2)
    as [E|[E _]].
  - unfold valid_config, faint_args.
    cbn [proportion opacity input_path watermark_path output_dir margin
         position type_of_rescaling mode tile_padding].
    repeat split; try reflexivity; try discriminate; try lia;
      try (simpl; tauto).
    left. exists "MIDDLE"%string. split; [reflexivity|simpl; tauto].
  - reflexivity.
  - reflexivity.
  - reflexivity.
  - split; split; reflexivity.
  - split; split; reflexivity.
  - apply solid_ok; [lia|lia|exact grey_ok].
  - intros w h Hw _ _. vm_compute in Hw. injection Hw as <- <-.
    reflexivity.
  - intros sz wm pos Hn Hwm Hpos.
    vm_compute in Hn. injection Hn as <-.
    vm_compute in Hwm. injection Hwm as <-.
    vm_compute in Hpos. injection Hpos as <-. reflexivity.
  - reflexivity.
  - reflexivity.
  - exact E.
  - discriminate E.
Defined.

(** X16 on a mark of 0 x 0 pixels. *)
Lemma empty_mark_is_reported_witness :
  add_watermark round255 nearest fits_c_int empty_mark_disk always
      box_fits_c_int 20
    (single_args 0 (PosStr "MIDDLE"))
  = Prints UnexpectedError.
Proof.
  apply (empty_mark_is_reported round255 nearest fits_c_int empty_mark_disk
      always box_fits_c_int 20
           (single_args 0 (PosStr "MIDDLE")) canvas4 (Image 0 0 []));
    try reflexivity.
  left. reflexivity.
Defined.

(** ** A resize that raises *)

Section Oversize.

Variable div255 : Z -> Z.
Variable resize : image -> Z * Z -> image.
Variable can_resize : image -> Z * Z -> bool.
Variable open_rgba : string -> opened.
Variable can_save : string -> bool.
Variable can_paste : image -> Z * Z -> bool.

(** X18: when both sides of [new_size] are positive and the resize of line
    95 raises, the call prints the unexpected-error line and returns: nothing
    is placed and nothing is written, in SINGLE and in TILE mode. *)
Theorem resize_error_is_reported (fuel : nat) (a : arguments)
    (canvas mark : image) (w h : Z) :
  validation_error a = None ->
  open_rgba (input_path a) = Opened canvas ->
  open_rgba (watermark_path a) = Opened mark ->
  wanted_size a canvas mark = Some (w, h) -> 0 < w -> 0 < h ->
  can_resize mark (w, h) = false ->
  add_watermark div255 resize can_resize open_rgba can_save can_paste fuel a
  = Prints UnexpectedError.
Proof.
  intros V Hc Hm Hn Hw Hh Hr. unfold add_watermark. rewrite V.
  unfold try_block, prepare, open_image. rewrite Hc, Hm. cbn [bind].
  unfold size. unfold wanted_size in Hn.
  destruct ((im_width mark =? 0) || (im_height mark =? 0)); [reflexivity|].
  rewrite Hn. cbn [or_raise bind]. unfold resize_step. cbn [fst snd].
  apply Z.gtb_lt in Hw, Hh. rewrite Hw, Hh, Hr. reflexivity.
Qed.

(** X19: in SINGLE mode, when the [paste] of line 146 raises on the offset
    of the Positioner, the call prints the unexpected-error line and
    returns, and nothing is written. *)
Theorem paste_error_is_reported (fuel : nat) (a : arguments) (p : prepared)
    (pos : Z * Z) :
  validation_error a = None ->
  prepare resize can_resize open_rgba a = Ok p ->
  single_offset a p = Some pos ->
  can_paste (watermark_img p) pos = false ->
  add_watermark div255 resize can_resize open_rgba can_save can_paste fuel a
  = Prints UnexpectedError.
Proof.
  intros V Hp Ho Hc. unfold add_watermark. rewrite V.
  unfold try_block. rewrite Hp. cbn [bind].
  rewrite (place_step_single _ _ _ _ _ _ Ho), Hc. reflexivity.
Qed.

End Oversize.

(** A canvas of 5000 x 1 pixels and a mark of 1 x 430000 at proportion 1:
    the scale factor is 5000 and the height wanted does not fit a C int. *)
Definition tall_mark_disk : string -> opened :=
  disk [("small.png", Opened (solid (5000, 1) grey));
        ("dot.png", Opened (solid (1, 430000) ink))]%string.

Definition tall_mark_args : arguments :=
  Arguments "small.png" "dot.png" "out.png" 0 (PosStr "LOWER_RIGHT")
    1 1 "LINEAR" "SINGLE" 10.

(** X18 on the 1 x 430000 mark. *)
Lemma resize_error_is_reported_witness :
  wanted_size tall_mark_args (solid (5000, 1) grey) (solid (1, 430000) ink)
  = Some (5000, 2150000000)
  /\ add_watermark round255 nearest fits_c_int tall_mark_disk always
      box_fits_c_int 20
       tall_mark_args
     = Prints UnexpectedError.
Proof.
  assert (E : wanted_size tall_mark_args (solid (5000, 1) grey)
                (solid (1, 430000) ink) = Some (5000, 2150000000))
    by (vm_compute; reflexivity).
  split; [exact E|].
  apply (resize_error_is_reported round255 nearest fits_c_int tall_mark_disk
           always box_fits_c_int 20 tall_mark_args (solid (5000, 1) grey)
           (solid (1, 430000) ink) 5000 2150000000).
  - reflexivity.
  - reflexivity.
  - reflexivity.
  - exact E.
  - lia.
  - lia.
  - reflexivity.
Defined.

(** X19 on a 4 x 4 canvas and a 2 x 2 mark with a margin of 3000000000: the
    offset of LOWER_RIGHT is (-2999999998, -2999999998), below the least C
    int. *)
Lemma paste_error_is_reported_witness :
  single_offset (single_args 3000000000 (PosStr "LOWER_RIGHT"))
    (Prepared canvas4 mark2 (2, 2))
  = Some (-2999999998, -2999999998)
  /\ add_watermark round255 nearest fits_c_int sample_disk always
       box_fits_c_int 20 (single_args 3000000000 (PosStr "LOWER_RIGHT"))
     = Prints UnexpectedError.
Proof.
  split; [reflexivity|].
  apply (paste_error_is_reported round255 nearest fits_c_int sample_disk
           always box_fits_c_int 20
           (single_args 3000000000 (PosStr "LOWER_RIGHT"))
           (Prepared canvas4 mark2 (2, 2)) (-2999999998, -2999999998)).
  - reflexivity.
  - vm_compute. reflexivity.
  - reflexivity.
  - reflexivity.
Defined.
